(** * tiptap-extension-pagination: the page node and its paper attributes

    A shallow embedding of [src/Nodes/Page.ts] and [src/utils/paper.ts].

    - JavaScript values that travel through attributes are [JsValue]s; a
      missing property ([undefined]) is the [None] of a lookup.
    - [JSON.parse] and [JSON.stringify] are the host's built-ins; they are
      given here as an executable recursive-descent parser and a printer.
      Numbers are exact decimals [mantissa * 10^exp10]; binary64 rounding is
      outside the model.
    - Effects ([console.warn], [console.error], [dispatch], writes to the
      transaction, calls of the collaborators of [utils/page]) are threaded
      explicitly: a trace of events for the resolver, a world record for the
      setters.
    - An exception is a [Throw] completion. *)

From stdpp Require Import base option list strings gmap.
From Stdlib Require Import ZArith Ascii Decimal DecimalFacts DecimalPos DecimalN Lia.

Set Warnings "-register-all".

Local Open Scope Z_scope.
Local Open Scope list_scope.

(** ** JavaScript values and completions *)

Inductive JsValue : Type :=
| JsNull
| JsBool (b : bool)
| JsNumber (mantissa exp10 : Z)
| JsString (s : string)
| JsArray (items : list JsValue)
| JsObject (members : list (string * JsValue)).

Inductive JsError : Type :=
| SyntaxError
| RangeError
| TypeError.

Inductive Completion (A : Type) : Type :=
| Return (a : A)
| Throw (e : JsError).

Arguments Return {A} a.
Arguments Throw {A} e.

(** A JavaScript string is truthy unless it is empty. *)
Definition truthy (s : string) : bool :=
  match s with
  | EmptyString => false
  | String _ _ => true
  end.

(** ** The JSON built-ins *)

Module JSON.

Inductive presult (A : Type) : Type :=
| POk (a : A) (rest : list ascii)
| PError
| PFuel.

Arguments POk {A} a rest.
Arguments PError {A}.
Arguments PFuel {A}.

(** The double quote character. *)
Definition dquote : ascii := Eval cbv in ascii_of_nat 34.

Definition is_ws (c : ascii) : bool :=
  match nat_of_ascii c with
  | 32%nat | 9%nat | 10%nat | 13%nat => true
  | _ => false
  end.

Fixpoint skip_ws (s : list ascii) : list ascii :=
  match s with
  | c :: r => if is_ws c then skip_ws r else s
  | [] => []
  end.

Definition digit_of_char (c : ascii) : option (uint -> uint) :=
  match nat_of_ascii c with
  | 48%nat => Some D0 | 49%nat => Some D1 | 50%nat => Some D2 | 51%nat => Some D3
  | 52%nat => Some D4 | 53%nat => Some D5 | 54%nat => Some D6 | 55%nat => Some D7
  | 56%nat => Some D8 | 57%nat => Some D9
  | _ => None
  end.

Fixpoint chars_of_uint (u : uint) : list ascii :=
  match u with
  | Nil => []
  | D0 u => "0"%char :: chars_of_uint u
  | D1 u => "1"%char :: chars_of_uint u
  | D2 u => "2"%char :: chars_of_uint u
  | D3 u => "3"%char :: chars_of_uint u
  | D4 u => "4"%char :: chars_of_uint u
  | D5 u => "5"%char :: chars_of_uint u
  | D6 u => "6"%char :: chars_of_uint u
  | D7 u => "7"%char :: chars_of_uint u
  | D8 u => "8"%char :: chars_of_uint u
  | D9 u => "9"%char :: chars_of_uint u
  end.

(** The longest run of decimal digits at the head of the input. *)
Fixpoint take_digits (s : list ascii) : uint * list ascii :=
  match s with
  | c :: r =>
      match digit_of_char c with
      | Some d => let (u, r') := take_digits r in (d u, r')
      | None => (Nil, s)
      end
  | [] => (Nil, [])
  end.

(** [int = "0" / digit1-9 *DIGIT]: no empty run, no leading zero. *)
Definition valid_int (u : uint) : bool :=
  match u with
  | Nil => false
  | D0 Nil => true
  | D0 _ => false
  | _ => true
  end.

Definition signed (neg : bool) (n : N) : Z :=
  if neg then - Z.of_N n else Z.of_N n.

Definition parse_frac (s : list ascii) : option (uint * list ascii) :=
  match s with
  | c :: r =>
      if Ascii.eqb c "." then
        match take_digits r with
        | (Nil, _) => None
        | (u, r') => Some (u, r')
        end
      else Some (Nil, s)
  | [] => Some (Nil, [])
  end.

Definition parse_minus (s : list ascii) : bool * list ascii :=
  match s with
  | c :: r => if Ascii.eqb c "-" then (true, r) else (false, s)
  | [] => (false, [])
  end.

Definition parse_sign (s : list ascii) : bool * list ascii :=
  match s with
  | c :: r =>
      if Ascii.eqb c "-" then (true, r)
      else if Ascii.eqb c "+" then (false, r)
      else (false, s)
  | [] => (false, [])
  end.

Definition parse_exp (s : list ascii) : option (Z * list ascii) :=
  match s with
  | c :: r =>
      if Ascii.eqb c "e" || Ascii.eqb c "E" then
        let (neg, r1) := parse_sign r in
        match take_digits r1 with
        | (Nil, _) => None
        | (u, r2) => Some (signed neg (N.of_uint u), r2)
        end
      else Some (0, s)
  | [] => Some (0, [])
  end.

(** [number = [ "-" ] int [ frac ] [ exp ]]; the value is kept as the exact
    decimal the literal denotes. *)
Definition parse_number (s : list ascii) : presult JsValue :=
  let (neg, s1) := parse_minus s in
  let (int, s2) := take_digits s1 in
  if valid_int int then
    match parse_frac s2 with
    | Some (frac, s3) =>
        match parse_exp s3 with
        | Some (e, s4) =>
            POk (JsNumber (signed neg (N.of_uint (Decimal.app int frac)))
                          (e - Z.of_nat (nb_digits frac))) s4
        | None => PError
        end
    | None => PError
    end
  else PError.

Definition hex_of_char (c : ascii) : option N :=
  let n := N_of_ascii c in
  if (48 <=? n)%N && (n <=? 57)%N then Some (n - 48)%N
  else if (65 <=? n)%N && (n <=? 70)%N then Some (n - 55)%N
  else if (97 <=? n)%N && (n <=? 102)%N then Some (n - 87)%N
  else None.

(** A code unit given by a [\uXXXX] escape, as the bytes of its UTF-8 form
    (strings are byte strings here). *)
Definition utf8_of_code_unit (n : N) : list ascii :=
  if (n <? 128)%N then [ascii_of_N n]
  else if (n <? 2048)%N then
    [ascii_of_N (192 + n / 64); ascii_of_N (128 + n mod 64)]
  else
    [ascii_of_N (224 + n / 4096); ascii_of_N (128 + (n / 64) mod 64);
     ascii_of_N (128 + n mod 64)].

Definition unescape (c : ascii) : option ascii :=
  match nat_of_ascii c with
  | 34%nat => Some dquote
  | 92%nat => Some "\"%char
  | 47%nat => Some "/"%char
  | 98%nat => Some "008"%char
  | 102%nat => Some "012"%char
  | 110%nat => Some "010"%char
  | 114%nat => Some "013"%char
  | 116%nat => Some "009"%char
  | _ => None
  end.

(** The characters of a string literal, after its opening quote. *)
Fixpoint parse_chars (s : list ascii) : option (list ascii * list ascii) :=
  match s with
  | [] => None
  | c :: r =>
      if Ascii.eqb c dquote then Some ([], r)
      else if Ascii.eqb c "\" then
        match r with
        | e :: r1 =>
            if Ascii.eqb e "u" then
              match r1 with
              | h1 :: h2 :: h3 :: h4 :: r2 =>
                  match hex_of_char h1, hex_of_char h2, hex_of_char h3, hex_of_char h4 with
                  | Some a, Some b, Some c', Some d =>
                      match parse_chars r2 with
                      | Some (cs, r3) =>
                          Some (utf8_of_code_unit (((a * 16 + b) * 16 + c') * 16 + d)%N ++ cs, r3)
                      | None => None
                      end
                  | _, _, _, _ => None
                  end
              | _ => None
              end
            else
              match unescape e with
              | Some x =>
                  match parse_chars r1 with
                  | Some (cs, r2) => Some (x :: cs, r2)
                  | None => None
                  end
              | None => None
              end
        | [] => None
        end
      else if (N_of_ascii c <? 32)%N then None
      else
        match parse_chars r with
        | Some (cs, r1) => Some (c :: cs, r1)
        | None => None
        end
  end.

(** The rest of the input when it starts with the given keyword. *)
Fixpoint strip_prefix (kw s : list ascii) : option (list ascii) :=
  match kw, s with
  | [], _ => Some s
  | k :: kw', c :: r => if Ascii.eqb k c then strip_prefix kw' r else None
  | _ :: _, [] => None
  end.

Definition parse_keyword (kw : string) (v : JsValue) (s : list ascii) : presult JsValue :=
  match strip_prefix (String.list_ascii_of_string kw) s with
  | Some r => POk v r
  | None => PError
  end.

Definition wrap {A B : Type} (f : A -> B) (r : presult A) : presult B :=
  match r with
  | POk a rest => POk (f a) rest
  | PError => PError
  | PFuel => PFuel
  end.

Fixpoint parse_value (fuel : nat) (s : list ascii) : presult JsValue :=
  match fuel with
  | O => PFuel
  | S fuel =>
      match skip_ws s with
      | [] => PError
      | c :: r =>
          if Ascii.eqb c "n" then parse_keyword "null" JsNull (c :: r)
          else if Ascii.eqb c "t" then parse_keyword "true" (JsBool true) (c :: r)
          else if Ascii.eqb c "f" then parse_keyword "false" (JsBool false) (c :: r)
          else if Ascii.eqb c dquote then
            match parse_chars r with
            | Some (cs, r') => POk (JsString (String.string_of_list_ascii cs)) r'
            | None => PError
            end
          else if Ascii.eqb c "[" then
            match skip_ws r with
            | c' :: r' =>
                if Ascii.eqb c' "]" then POk (JsArray []) r'
                else wrap JsArray (parse_elements fuel r)
            | [] => PError
            end
          else if Ascii.eqb c "{" then
            match skip_ws r with
            | c' :: r' =>
                if Ascii.eqb c' "}" then POk (JsObject []) r'
                else wrap JsObject (parse_members fuel r)
            | [] => PError
            end
          else parse_number (c :: r)
      end
  end
with parse_elements (fuel : nat) (s : list ascii) : presult (list JsValue) :=
  match fuel with
  | O => PFuel
  | S fuel =>
      match parse_value fuel s with
      | POk v r =>
          match skip_ws r with
          | c :: r' =>
              if Ascii.eqb c "," then wrap (cons v) (parse_elements fuel r')
              else if Ascii.eqb c "]" then POk [v] r'
              else PError
          | [] => PError
          end
      | PError => PError
      | PFuel => PFuel
      end
  end
with parse_members (fuel : nat) (s : list ascii) : presult (list (string * JsValue)) :=
  match fuel with
  | O => PFuel
  | S fuel =>
      match skip_ws s with
      | c :: r =>
          if Ascii.eqb c dquote then
            match parse_chars r with
            | Some (k, r1) =>
                match skip_ws r1 with
                | c1 :: r2 =>
                    if Ascii.eqb c1 ":" then
                      match parse_value fuel r2 with
                      | POk v r3 =>
                          match skip_ws r3 with
                          | c3 :: r4 =>
                              if Ascii.eqb c3 "," then
                                wrap (cons (String.string_of_list_ascii k, v)) (parse_members fuel r4)
                              else if Ascii.eqb c3 "}" then
                                POk [(String.string_of_list_ascii k, v)] r4
                              else PError
                          | [] => PError
                          end
                      | PError => PError
                      | PFuel => PFuel
                      end
                    else PError
                | [] => PError
                end
            | None => PError
            end
          else PError
      | [] => PError
      end
  end.

(** Every level of nesting and every list item costs one unit of fuel and
    at least one character, so twice the length is enough: the parse below
    never ends in [PFuel] ([JSONFuel.parse_value_fuel]). *)
Definition fuel_for (s : list ascii) : nat := (2 * length s + 2)%nat.

(** [JSON.parse(text)]: the value, or a [SyntaxError]. *)
Definition parse (text : string) : Completion JsValue :=
  let s := String.list_ascii_of_string text in
  match parse_value (fuel_for s) s with
  | POk v r =>
      match skip_ws r with
      | [] => Return v
      | _ :: _ => Throw SyntaxError
      end
  | PError => Throw SyntaxError
  | PFuel => Throw SyntaxError
  end.

Definition hex_char (n : N) : ascii :=
  if (n <? 10)%N then ascii_of_N (48 + n) else ascii_of_N (87 + n).

Definition escape_char (c : ascii) : list ascii :=
  let n := N_of_ascii c in
  if Ascii.eqb c dquote then ["\"; dquote]%char
  else if Ascii.eqb c "\" then ["\"; "\"]%char
  else if (n =? 8)%N then ["\"; "b"]%char
  else if (n =? 12)%N then ["\"; "f"]%char
  else if (n =? 10)%N then ["\"; "n"]%char
  else if (n =? 13)%N then ["\"; "r"]%char
  else if (n =? 9)%N then ["\"; "t"]%char
  else if (n <? 32)%N then
    ["\"; "u"; "0"; "0"; hex_char (n / 16); hex_char (n mod 16)]%char
  else [c].

Definition quote (s : string) : list ascii :=
  dquote :: flat_map escape_char (String.list_ascii_of_string s) ++ [dquote].

Definition int_chars (z : Z) : list ascii :=
  (if z <? 0 then ["-"%char] else []) ++ chars_of_uint (N.to_uint (Z.abs_N z)).

(** An integer prints as its digits; any other decimal prints in exponent
    form (ECMAScript would print binary64's shortest form: the text differs,
    the value read back does not). *)
Definition number_chars (m e : Z) : list ascii :=
  if e =? 0 then int_chars m else int_chars m ++ "e"%char :: int_chars e.

(** The items of a list, each printed by [f], separated by commas. *)
Definition join_with {A : Type} (f : A -> list ascii) : list A -> list ascii :=
  fix join (l : list A) : list ascii :=
    match l with
    | [] => []
    | x :: l' =>
        match l' with
        | [] => f x
        | _ :: _ => f x ++ ","%char :: join l'
        end
    end.

Fixpoint stringify_chars (v : JsValue) : list ascii :=
  match v with
  | JsNull => String.list_ascii_of_string "null"
  | JsBool true => String.list_ascii_of_string "true"
  | JsBool false => String.list_ascii_of_string "false"
  | JsNumber m e => number_chars m e
  | JsString s => quote s
  | JsArray items => "["%char :: join_with stringify_chars items ++ ["]"%char]
  | JsObject members =>
      "{"%char ::
      join_with (fun kv => quote (fst kv) ++ ":"%char :: stringify_chars (snd kv)) members ++
      ["}"%char]
  end.

(** The input ends, or goes on with a character that closes a value. *)
Definition delimited (rest : list ascii) : Prop :=
  match rest with
  | [] => True
  | c :: _ => c = ","%char \/ c = "]"%char \/ c = "}"%char
  end.

Definition starts_with_digit (s : list ascii) : bool :=
  match s with
  | c :: _ => match digit_of_char c with Some _ => true | None => false end
  | [] => false
  end.

(** [v] is read back from its printed form, whatever closes it, with fuel
    above twice the length of that form. *)
Definition reads_back (v : JsValue) : Prop :=
  forall rest fuel,
    delimited rest ->
    (2 * length (stringify_chars v) < fuel)%nat ->
    parse_value fuel (stringify_chars v ++ rest) = POk v rest.

(** [JSON.stringify(value)]. *)
Definition stringify (v : JsValue) : string :=
  String.string_of_list_ascii (stringify_chars v).

End JSON.

(** ** The DOM, as far as the page node reads it *)

Inductive HTMLElement : Type :=
| Element (localName : string) (attributes : gmap string string)
          (parentElement : option HTMLElement).

Definition localName (e : HTMLElement) : string :=
  match e with Element n _ _ => n end.

Definition attributes (e : HTMLElement) : gmap string string :=
  match e with Element _ a _ => a end.

Definition parentElement (e : HTMLElement) : option HTMLElement :=
  match e with Element _ _ p => p end.

(** [element.getAttribute(name)]: [None] is [null]. *)
Definition getAttribute (e : HTMLElement) (name : string) : option string :=
  attributes e !! name.

Definition hasAttribute (e : HTMLElement) (name : string) : bool :=
  match attributes e !! name with
  | Some _ => true
  | None => false
  end.

(** ** ProseMirror nodes *)

Inductive PMNode : Type :=
| Node (typeName : string) (attrs : gmap string JsValue) (content : list PMNode).

Definition typeName (n : PMNode) : string :=
  match n with Node t _ _ => t end.

Definition attrs (n : PMNode) : gmap string JsValue :=
  match n with Node _ a _ => a end.

Definition content (n : PMNode) : list PMNode :=
  match n with Node _ _ c => c end.

Definition Nullable (T : Type) : Type := option T.

(** A property read as a [Nullable]: [undefined] and [null] are both
    nullish, which is all [??] looks at. *)
Definition nullable (v : option JsValue) : Nullable JsValue :=
  match v with
  | Some JsNull => None
  | Some x => Some x
  | None => None
  end.

(** [a ?? b]. *)
Definition nullish_coalesce {T : Type} (a : Nullable T) (b : T) : T :=
  match a with
  | Some x => x
  | None => b
  end.

(** [v === s] for a string [s]: only the same string is strictly equal. *)
Definition strict_eq_string (v : Nullable JsValue) (s : string) : bool :=
  match v with
  | Some (JsString s') => String.eqb s' s
  | _ => false
  end.

(** The property names an object literal inherits from [Object.prototype]. *)
Definition Object_prototype_names : list string :=
  ["constructor"; "hasOwnProperty"; "isPrototypeOf"; "propertyIsEnumerable";
   "toLocaleString"; "toString"; "valueOf"; "__proto__";
   "__defineGetter__"; "__defineSetter__"; "__lookupGetter__"; "__lookupSetter__"]%string.

Definition inherited (name : string) : bool :=
  existsb (String.eqb name) Object_prototype_names.

(** [key in object], for an object literal with the given own properties:
    true for an own property and for an inherited one. *)
Definition js_in {A : Type} (key : string) (object : gmap string A) : bool :=
  match object !! key with
  | Some _ => true
  | None => inherited key
  end.

(** What [object[key]] reads. *)
Inductive Property (A : Type) : Type :=
| Own (a : A)
| Inherited (name : string)
| Undefined.

Arguments Own {A} a.
Arguments Inherited {A} name.
Arguments Undefined {A}.

Definition js_index {A : Type} (object : gmap string A) (key : string) : Property A :=
  match object !! key with
  | Some a => Own a
  | None => if inherited key then Inherited key else Undefined
  end.

Record EditorState : Type := { doc : PMNode }.

(** ** Constants of the page node *)

(** Modelled from the spec: [constants/page] is not among the sources. The
    page node's type name is the class [Page.ts] gives the page element
    ([class: "page"] in [renderHTML], [classList.add(PAGE_NODE_NAME)] in the
    node view); the attribute keys are the attribute names of the data
    model. *)
Definition PAGE_NODE_NAME : string := "page".

Module PAGE_NODE_ATTR_KEYS.
Definition paperSize : string := "paperSize".
Definition paperColour : string := "paperColour".
Definition paperOrientation : string := "paperOrientation".
Definition pageMargins : string := "pageMargins".
Definition pageGap : string := "pageGap".
End PAGE_NODE_ATTR_KEYS.

Definition PAGE_NODE_PAPER_SIZE_ATTR : string := PAGE_NODE_ATTR_KEYS.paperSize.
Definition PAGE_NODE_PAPER_COLOUR_ATTR : string := PAGE_NODE_ATTR_KEYS.paperColour.

(** ** Collaborators of [utils/page] and [utils/pagination] *)

(** Modelled from the spec: [isPageNode] of [utils/page] is not among the
    sources; a page node is a node of the page type. *)
Definition isPageNode (node : PMNode) : bool :=
  String.eqb (typeName node) PAGE_NODE_NAME.

(** Modelled from the spec: the document traversal of [utils/page] is not
    among the sources. Pages are the page nodes of the document in document
    order, numbered [0 .. N-1]. *)
Fixpoint pageNodesIn (n : PMNode) : list PMNode :=
  match n with
  | Node _ _ children =>
      flat_map (fun c => (if isPageNode c then [c] else []) ++ pageNodesIn c) children
  end.

Definition numPages (d : PMNode) : Z := Z.of_nat (length (pageNodesIn d)).

(** Modelled from the spec: "does document contain any page node". *)
Definition doesDocHavePageNodes (state : EditorState) : bool :=
  match pageNodesIn (doc state) with
  | [] => false
  | _ :: _ => true
  end.

(** Modelled from the spec: "last page number" is [N - 1]. *)
Definition getLastPageNum (d : PMNode) : Z := numPages d - 1.

(** Modelled from the spec: "is index in range", the range being
    [[0, lastPageNum]]. *)
Definition isPageNumInRange (d : PMNode) (pageNum : Z) : bool :=
  (0 <=? pageNum) && (pageNum <=? getLastPageNum d).

(** Modelled from the spec: "get page node by index", by document order. *)
Definition getPageNodeByPageNum (d : PMNode) (pageNum : Z) : Nullable PMNode :=
  if pageNum <? 0 then None else pageNodesIn d !! Z.to_nat pageNum.

(** ** Transactions, dispatch and the console *)

Inductive Diagnostic : Type :=
| ConsoleWarn (args : list JsValue)
| ConsoleError (args : list JsValue).

Inductive Step : Type :=
| AttrStep (pos : Z) (attr : string) (value : JsValue).

(** A transaction: the nodes of its document by position, the size of the
    document's content, and the steps written to it. *)
Record Transaction : Type := {
  tr_doc : gmap Z PMNode;
  tr_size : Z;
  tr_steps : list Step
}.

(** [tr.doc.nodeAt(pos)] of prosemirror-model: a position outside the
    document raises a [RangeError]; a position inside it holds a node or
    holds none ([null]). *)
Definition nodeAt (t : Transaction) (pos : Z) : Completion (Nullable PMNode) :=
  if (pos <? 0) || (tr_size t <? pos) then Throw RangeError
  else Return (tr_doc t !! pos).

(** [Dispatch] is a function or [undefined]; calling it hands the
    transaction to the host, which is recorded in [dispatched]. *)
Inductive Dispatch : Type :=
| DispatchUndefined
| DispatchFn.

(** What a setter can touch: the transaction object it is given, the
    transactions handed to [dispatch], and the console. *)
Record World : Type := {
  tr : Transaction;
  dispatched : list Transaction;
  console : list Diagnostic
}.

Definition log (d : Diagnostic) (w : World) : World :=
  {| tr := tr w; dispatched := dispatched w; console := console w ++ [d] |}.

Definition write (f : Transaction -> Transaction) (w : World) : World :=
  {| tr := f (tr w); dispatched := dispatched w; console := console w |}.

(** [dispatch(tr)]. *)
Definition call_dispatch (w : World) : World :=
  {| tr := tr w; dispatched := dispatched w ++ [tr w]; console := console w |}.

Definition setNodeAttr (attr : string) (value : JsValue) (n : PMNode) : PMNode :=
  Node (typeName n) (<[attr := value]> (attrs n)) (content n).

(** Modelled from the spec: [setPageNodeAttribute] of [utils/page] is not
    among the sources; it sets the attribute on the node at the position
    within the transaction. *)
Definition setPageNodeAttribute (t : Transaction) (pagePos : Z) (pageNode : PMNode)
    (attr : string) (value : JsValue) : Transaction :=
  {| tr_doc := alter (setNodeAttr attr value) pagePos (tr_doc t);
     tr_size := tr_size t;
     tr_steps := tr_steps t ++ [AttrStep pagePos attr value] |}.

(** A call was rejected: it answered [false], wrote nothing to the
    transaction and did not call [dispatch]. *)
Definition rejected (r : bool * World) (w : World) : Prop :=
  fst r = false /\ tr (snd r) = tr w /\ dispatched (snd r) = dispatched w.

(** The same for a call that could also have raised. *)
Definition rejected_call (r : Completion bool * World) (w : World) : Prop :=
  fst r = Return false /\ tr (snd r) = tr w /\ dispatched (snd r) = dispatched w.

(** ** The resolver's effects: a trace of what it calls and logs *)

Inductive Event : Type :=
| CallDoesDocHavePageNodes
| CallIsPageNumInRange (pageNum : Z)
| CallGetLastPageNum
| CallGetPageNodeByPageNum (pageNum : Z)
| CallGetNodeAttribute (node : PMNode)
| CallGetDefault
| Console (d : Diagnostic).

(** A computation that leaves a trace; [None] is an evaluation cut short by
    the recursion bound. *)
Definition Eff (T : Type) : Type := option (T * list Event).

Definition ret {T : Type} (x : T) : Eff T := Some (x, []).

Definition call {T : Type} (e : Event) (x : T) : Eff T := Some (x, [e]).

Definition bind {A B : Type} (m : Eff A) (k : A -> Eff B) : Eff B :=
  match m with
  | Some (a, t) =>
      match k a with
      | Some (b, t') => Some (b, t ++ t')
      | None => None
      end
  | None => None
  end.

Notation "'let*' x ':=' m 'in' k" := (bind m (fun x => k))
  (at level 10, x name, m at level 100, k at level 200).

Definition is_warning (e : Event) : bool :=
  match e with
  | Console (ConsoleWarn _) => true
  | _ => false
  end.

Definition is_diagnostic (e : Event) : bool :=
  match e with
  | Console _ => true
  | _ => false
  end.

Definition is_node_lookup (e : Event) : bool :=
  match e with
  | CallGetPageNodeByPageNum _ => true
  | _ => false
  end.

Fixpoint count (p : Event -> bool) (t : list Event) : nat :=
  match t with
  | [] => 0%nat
  | e :: t' => if p e then S (count p t') else count p t'
  end.

(** Two resolutions answer the same value, and the first one logs exactly
    one diagnostic, a warning. *)
Definition same_value_one_warning {T : Type} (r r_last : Eff T) : Prop :=
  exists v t t',
    r = Some (v, t) /\ r_last = Some (v, t') /\
    count is_diagnostic t = 1%nat /\ count is_warning t = 1%nat.

(** ** [src/utils/paper.ts] *)

Definition PaperSize : Type := string.

Record PaperDimensions (number : Type) : Type := {
  width : number;
  height : number
}.

Arguments width {number} _.
Arguments height {number} _.

(** [editor.commands], as far as the resolver calls it. *)
Record Commands : Type := {
  getDefaultPaperSize : unit -> PaperSize;
  getDefaultPaperColour : unit -> string
}.

Record Editor : Type := {
  state : EditorState;
  commands : Commands
}.

Section Paper.

(** The type of millimetre values, the table and the defaults of
    [constants/paper], and [isValidColour] of [utils/colour]: none of them is
    among the sources, the functions below are read against any choice of
    them. The table is an object literal, given by its own properties. *)
Variable number : Type.
Variable paperDimensions : gmap string (PaperDimensions number).
Variable DEFAULT_PAPER_SIZE : PaperSize.
Variable DEFAULT_PAPER_COLOUR : string.
Variable isValidColour : string -> bool.

Definition isValidPaperSize (paperSize : PaperSize) : bool :=
  js_in paperSize paperDimensions.

Definition getPaperDimensions (paperSize : PaperSize) : Property (PaperDimensions number) :=
  let paperSize :=
    if negb (isValidPaperSize paperSize) then DEFAULT_PAPER_SIZE else paperSize in
  js_index paperDimensions paperSize.

Definition getPageNodePaperSize (pageNode : PMNode) : Nullable JsValue :=
  nullable (attrs pageNode !! PAGE_NODE_PAPER_SIZE_ATTR).

Definition getPageNodePaperColour (pageNode : PMNode) : Nullable JsValue :=
  nullable (attrs pageNode !! PAGE_NODE_PAPER_COLOUR_ATTR).

Definition out_of_range_warning (pageNum : Z) : Diagnostic :=
  ConsoleWarn [JsString "Page number:"; JsNumber pageNum 0;
               JsString "is out of range for the document. Using last page."].

Definition handleOutOfRangePageNum {T : Type} (state : EditorState) (pageNum : Z)
    (fallbackFn : EditorState -> Z -> Eff T) : Eff T :=
  let* _ := call (Console (out_of_range_warning pageNum)) tt in
  let* lastPageNum := call CallGetLastPageNum (getLastPageNum (doc state)) in
  fallbackFn state lastPageNum.

(** [fuel] bounds the depth of the recursion through
    [handleOutOfRangePageNum]. *)
Fixpoint getPageAttribute {T : Type} (fuel : nat) (state : EditorState) (pageNum : Z)
    (getDefault : unit -> T) (getNodeAttribute : PMNode -> Nullable T) : Eff T :=
  match fuel with
  | O => None
  | S fuel =>
      let* hasPages := call CallDoesDocHavePageNodes (doesDocHavePageNodes state) in
      if negb hasPages then call CallGetDefault (getDefault tt)
      else
        let* inRange := call (CallIsPageNumInRange pageNum)
                             (isPageNumInRange (doc state) pageNum) in
        if negb inRange then
          handleOutOfRangePageNum state pageNum
            (fun s p => getPageAttribute fuel s p getDefault getNodeAttribute)
        else
          let* pageNode := call (CallGetPageNodeByPageNum pageNum)
                                (getPageNodeByPageNum (doc state) pageNum) in
          match pageNode with
          | None => call CallGetDefault (getDefault tt)
          | Some pageNode =>
              let* attribute := call (CallGetNodeAttribute pageNode)
                                     (getNodeAttribute pageNode) in
              match attribute with
              | Some value => ret value
              | None => call CallGetDefault (getDefault tt)
              end
          end
  end.

Definition getPageNumPaperSize (fuel : nat) (editor : Editor) (pageNum : Z) : Eff JsValue :=
  getPageAttribute fuel (state editor) pageNum
    (fun _ => JsString (getDefaultPaperSize (commands editor) tt)) getPageNodePaperSize.

Definition getPageNumPaperSizeFromState (fuel : nat) (state : EditorState) (pageNum : Z)
    : Eff JsValue :=
  getPageAttribute fuel state pageNum (fun _ => JsString DEFAULT_PAPER_SIZE)
    getPageNodePaperSize.

Definition getPageNumPaperColour (fuel : nat) (editor : Editor) (pageNum : Z) : Eff JsValue :=
  getPageAttribute fuel (state editor) pageNum
    (fun _ => JsString (getDefaultPaperColour (commands editor) tt)) getPageNodePaperColour.

Definition getPageNumPaperColourFromState (fuel : nat) (state : EditorState) (pageNum : Z)
    : Eff JsValue :=
  getPageAttribute fuel state pageNum (fun _ => JsString DEFAULT_PAPER_COLOUR)
    getPageNodePaperColour.

Definition setPageNodePosPaperSize (dispatch : Dispatch) (pagePos : Z) (pageNode : PMNode)
    (paperSize : PaperSize) (w : World) : bool * World :=
  match dispatch with
  | DispatchUndefined => (false, w)
  | DispatchFn =>
      if negb (isValidPaperSize paperSize) then
        (false, log (ConsoleWarn [JsString ("Invalid paper size: " +:+ paperSize)]) w)
      else if negb (isPageNode pageNode) then
        (false, log (ConsoleError [JsString "Unexpected! Node at pos:"; JsNumber pagePos 0;
                                   JsString "is not a page node!"]) w)
      else if strict_eq_string (getPageNodePaperSize pageNode) paperSize then
        (false, w)
      else
        let w := write (fun t => setPageNodeAttribute t pagePos pageNode
                                   PAGE_NODE_PAPER_SIZE_ATTR (JsString paperSize)) w in
        let w := call_dispatch w in
        (true, w)
  end.

(** The outcome is [Throw] when [nodeAt] raises: nothing has been done by
    then. *)
Definition setPagePaperSize (dispatch : Dispatch) (pagePos : Z) (paperSize : PaperSize)
    (w : World) : Completion bool * World :=
  match nodeAt (tr w) pagePos with
  | Throw e => (Throw e, w)
  | Return None =>
      (Return false,
       log (ConsoleError [JsString "No node found at pos:"; JsNumber pagePos 0]) w)
  | Return (Some pageNode) =>
      let (result, w) := setPageNodePosPaperSize dispatch pagePos pageNode paperSize w in
      (Return result, w)
  end.

Definition setPageNodePosPaperColour (dispatch : Dispatch) (pagePos : Z) (pageNode : PMNode)
    (paperColour : string) (w : World) : bool * World :=
  match dispatch with
  | DispatchUndefined => (false, w)
  | DispatchFn =>
      if negb (isValidColour paperColour) then
        (false, log (ConsoleWarn [JsString ("Invalid paper colour: " +:+ paperColour)]) w)
      else if negb (isPageNode pageNode) then
        (false, log (ConsoleError [JsString "Unexpected! Node at pos:"; JsNumber pagePos 0;
                                   JsString "is not a page node!"]) w)
      else if strict_eq_string (getPageNodePaperColour pageNode) paperColour then
        (false, w)
      else
        let w := write (fun t => setPageNodeAttribute t pagePos pageNode
                                   PAGE_NODE_PAPER_COLOUR_ATTR (JsString paperColour)) w in
        let w := call_dispatch w in
        (true, w)
  end.

End Paper.

(** ** [src/Nodes/Page.ts] *)

Definition baseElement : string := "div".
Definition dataPageAttribute : string := "data-page".

(** A DOM element under construction in the node view. *)
Inductive DomElement : Type :=
| Dom (tag : string) (domAttributes : gmap string string) (classList : list string)
      (style : gmap string string) (children : list DomElement).

Definition createElement (tag : string) : DomElement := Dom tag ∅ [] ∅ [].

Definition setAttribute (name value : string) (e : DomElement) : DomElement :=
  match e with Dom t a c s ch => Dom t (<[name := value]> a) c s ch end.

Definition classList_add (cls : string) (e : DomElement) : DomElement :=
  match e with Dom t a c s ch => Dom t a (c ++ [cls]) s ch end.

Definition set_style (property value : string) (e : DomElement) : DomElement :=
  match e with Dom t a c s ch => Dom t a c (<[property := value]> s) ch end.

Definition appendChild (child : DomElement) (e : DomElement) : DomElement :=
  match e with Dom t a c s ch => Dom t a c s (ch ++ [child]) end.

Definition style (e : DomElement) : gmap string string :=
  match e with Dom _ _ _ s _ => s end.

Record NodeView : Type := {
  dom : DomElement;
  contentDOM : DomElement
}.

Record PageNodeOptions (number : Type) : Type := {
  opt_paperSize : string;
  opt_paperColour : string;
  opt_paperOrientation : string;
  opt_pageMargins : string;
  opt_pageGap : number
}.

Arguments opt_pageGap {number} _.

(** What [getAttrs] of a parse rule answers: [false] rejects the element. *)
Inductive GetAttrsResult : Type :=
| GetAttrsFalse
| GetAttrsAttrs (a : gmap string JsValue).

Section Page.

(** The constants of [constants/paper] and [constants/page] and the helpers
    of [utils/paperSize] (the dimensions of a size in an orientation),
    [utils/paperMargins] and [utils/units] are not among the sources; the
    page node is read against any choice of them. *)
Variable number : Type.
Variable DEFAULT_PAPER_SIZE : string.
Variable DEFAULT_PAPER_COLOUR : string.
Variable DEFAULT_PAPER_ORIENTATION : string.
Variable DEFAULT_MARGIN_CONFIG : JsValue.
Variable DEFAULT_PAGE_GAP : JsValue.
Variable getOrientedPaperDimensions : JsValue -> JsValue -> PaperDimensions number.
Variable calculatePagePadding : JsValue -> string.
Variable mm : number -> string.

(** Modelled from the spec: the attribute readers of [utils/paperSize],
    [utils/paperColour], [utils/paperOrientation] and [utils/paperMargins]
    are not among the sources; each reads its own attribute of the node (as
    the two of [utils/paper.ts] do). *)
Definition getPageNodeAttr (key : string) (node : PMNode) : Nullable JsValue :=
  nullable (attrs node !! key).

(** [addAttributes]: the attributes the node declares, with their defaults. *)
Definition addAttributes : list (string * JsValue) :=
  [ (PAGE_NODE_ATTR_KEYS.paperSize, JsString DEFAULT_PAPER_SIZE);
    (PAGE_NODE_ATTR_KEYS.paperColour, JsString DEFAULT_PAPER_COLOUR);
    (PAGE_NODE_ATTR_KEYS.paperOrientation, JsString DEFAULT_PAPER_ORIENTATION);
    (PAGE_NODE_ATTR_KEYS.pageMargins, DEFAULT_MARGIN_CONFIG);
    (PAGE_NODE_ATTR_KEYS.pageGap, DEFAULT_PAGE_GAP) ].

(** [parseHTML] of the [pageMargins] attribute. *)
Definition pageMargins_parseHTML (element : HTMLElement) : Completion JsValue :=
  match getAttribute element PAGE_NODE_ATTR_KEYS.pageMargins with
  | Some margins =>
      if truthy margins then JSON.parse margins else Return DEFAULT_MARGIN_CONFIG
  | None => Return DEFAULT_MARGIN_CONFIG
  end.

(** [renderHTML] of the [pageMargins] attribute: the HTML attributes it
    contributes ([JSON.stringify(undefined)] is [undefined], which sets no
    attribute). *)
Definition pageMargins_renderHTML (attributes : gmap string JsValue) : gmap string string :=
  match attributes !! "pageMargins"%string with
  | Some v => {[ PAGE_NODE_ATTR_KEYS.pageMargins := JSON.stringify v ]}
  | None => ∅
  end.

(** The parse rule [{ tag: "div[data-page]", getAttrs }]. *)
Definition matches_tag (node : HTMLElement) : bool :=
  String.eqb (localName node) baseElement && hasAttribute node dataPageAttribute.

Definition getAttrs (node : HTMLElement) : GetAttrsResult :=
  match parentElement node with
  | Some parent =>
      if hasAttribute parent dataPageAttribute then GetAttrsFalse
      else GetAttrsAttrs ∅
  | None => GetAttrsAttrs ∅
  end.

(** An element becomes a page node through the rule when it matches the
    rule's selector and [getAttrs] does not answer [false]. *)
Definition parseHTML_accepts (node : HTMLElement) : bool :=
  matches_tag node &&
  match getAttrs node with
  | GetAttrsFalse => false
  | GetAttrsAttrs _ => true
  end.

(** [addNodeView], for the extension's options and one page node. *)
Definition addNodeView (options : PageNodeOptions number) (node : PMNode) : NodeView :=
  let dom := createElement baseElement in
  let dom := setAttribute dataPageAttribute "true" dom in
  let dom := classList_add PAGE_NODE_NAME dom in
  let paperSize :=
    nullish_coalesce (getPageNodeAttr PAGE_NODE_ATTR_KEYS.paperSize node)
                     (JsString DEFAULT_PAPER_SIZE) in
  let paperOrientation :=
    nullish_coalesce (getPageNodeAttr PAGE_NODE_ATTR_KEYS.paperOrientation node)
                     (JsString DEFAULT_PAPER_ORIENTATION) in
  let paperMargins :=
    nullish_coalesce (getPageNodeAttr PAGE_NODE_ATTR_KEYS.pageMargins node)
                     DEFAULT_MARGIN_CONFIG in
  let dims := getOrientedPaperDimensions paperSize paperOrientation in
  let dom := set_style "width" (mm (width dims)) dom in
  let dom := set_style "height" (mm (height dims)) dom in
  let dom := set_style "padding" (calculatePagePadding paperMargins) dom in
  let dom := set_style "border" "1px solid #ccc" dom in
  let paperColour :=
    nullish_coalesce (getPageNodeAttr PAGE_NODE_ATTR_KEYS.paperColour node)
                     (JsString DEFAULT_PAPER_COLOUR) in
  let dom :=
    match paperColour with
    | JsString colour => set_style "background" colour dom
    | _ => dom
    end in
  let dom := set_style "overflow" "hidden" dom in
  let dom := set_style "position" "relative" dom in
  let dom := set_style "marginTop" (mm (opt_pageGap options)) dom in
  let dom := set_style "marginLeft" "auto" dom in
  let dom := set_style "marginRight" "auto" dom in
  let contentDOM := createElement baseElement in
  let dom := appendChild contentDOM dom in
  {| dom := dom; contentDOM := contentDOM |}.

(** *** The clipboard serializer *)

(** [DOMSerializer.fromSchema(schema)] of prosemirror-model: [serializeNode]
    answers the DOM of one node and touches no target; [serializeFragment]
    appends the DOM of each node of the fragment to the target and answers
    the target. *)
Variable DomNode : Type.
Variable serializeNode : PMNode -> DomNode.

Definition DocumentFragment : Type := list DomNode.

Definition DOMSerializer_serializeFragment (fragment : list PMNode)
    (target : DocumentFragment) : DocumentFragment :=
  fold_left (fun target node => target ++ [serializeNode node]) fragment target.

(** [paginationClipboardSerializer.serializeFragment]; an omitted target is
    a fresh, empty document fragment. *)
Definition serializeFragment (fragment : list PMNode) (target : option DocumentFragment)
    : DocumentFragment :=
  let target := match target with Some t => t | None => [] end in
  fold_left
    (fun target node =>
       if isPageNode node then
         DOMSerializer_serializeFragment (content node) target
       else
         let _ := serializeNode node in
         target)
    fragment target.

End Page.

(** ** More of [src/utils/paper.ts] and [src/Nodes/Page.ts] *)

Record PagePixelDimensions (pixels : Type) : Type := {
  pageHeight : pixels;
  pageWidth : pixels
}.

Arguments pageHeight {pixels} _.
Arguments pageWidth {pixels} _.

Section PaperPixels.

(** [mmToPixels] of [utils/window] is not among the sources; it is taken as
    any function to pixels of a millimetre value, or of [undefined] ([None]),
    which is what destructuring gives for a component the value read from
    the table does not have. *)
Variable number : Type.
Variable pixels : Type.
Variable paperDimensions : gmap string (PaperDimensions number).
Variable DEFAULT_PAPER_SIZE : PaperSize.
Variable mmToPixels : option number -> pixels.

(** Destructuring [undefined] raises a [TypeError]; an inherited property (a
    function, or the prototype itself) has neither [width] nor [height]. *)
Definition calculatePagePixelDimensions (paperSize : PaperSize)
    : Completion (PagePixelDimensions pixels) :=
  match getPaperDimensions number paperDimensions DEFAULT_PAPER_SIZE paperSize with
  | Own dimensions =>
      let pageHeight := mmToPixels (Some (height dimensions)) in
      let pageWidth := mmToPixels (Some (width dimensions)) in
      Return {| pageHeight := pageHeight; pageWidth := pageWidth |}
  | Inherited _ =>
      let pageHeight := mmToPixels None in
      let pageWidth := mmToPixels None in
      Return {| pageHeight := pageHeight; pageWidth := pageWidth |}
  | Undefined => Throw TypeError
  end.

End PaperPixels.

Definition is_default_call (e : Event) : bool :=
  match e with
  | CallGetDefault => true
  | _ => false
  end.

(** What the resolver does for a page number in range whose page node is
    [node]: the two checks, the lookup, the attribute read, and the default
    provider only when the attribute is nullish. *)
Definition lookup_trace {T : Type} (getNodeAttribute : PMNode -> Nullable T)
    (pageNum : Z) (node : PMNode) : list Event :=
  [CallDoesDocHavePageNodes; CallIsPageNumInRange pageNum;
   CallGetPageNodeByPageNum pageNum; CallGetNodeAttribute node] ++
  match getNodeAttribute node with
  | Some _ => []
  | None => [CallGetDefault]
  end.

(** What the retry puts before the resolution for the last page. *)
Definition retry_trace (pageNum : Z) : list Event :=
  [CallDoesDocHavePageNodes; CallIsPageNumInRange pageNum;
   Console (out_of_range_warning pageNum); CallGetLastPageNum].

(** A DOM output specification [[tag, attrs, 0]]. *)
Record DOMOutputSpec : Type := {
  spec_tag : string;
  spec_attrs : gmap string JsValue;
  spec_hole : bool
}.

Section PageRender.

(** [mergeAttributes] of [@tiptap/core] is the host's; it is taken as a
    parameter. *)
Variable mergeAttributes : gmap string JsValue -> gmap string JsValue -> gmap string JsValue.

(** [renderHTML] of the page node. *)
Definition renderHTML (HTMLAttributes : gmap string JsValue) : DOMOutputSpec :=
  {| spec_tag := baseElement;
     spec_attrs :=
       mergeAttributes HTMLAttributes
         (<[dataPageAttribute := JsBool true]> {[ "class"%string := JsString "page" ]});
     spec_hole := true |}.

(** The element prosemirror builds from an output specification: the tag,
    and an attribute for every entry whose value is not [null];
    [attribute_text] is the text the DOM stores for a value. *)
Variable attribute_text : JsValue -> string.

Definition spec_element (spec : DOMOutputSpec) (parent : option HTMLElement) : HTMLElement :=
  Element (spec_tag spec)
          (omap (fun v => match v with
                          | JsNull => None
                          | _ => Some (attribute_text v)
                          end) (spec_attrs spec))
          parent.

End PageRender.

(** An element built in the node view, seen where it sits in a document. *)
Definition dom_element (e : DomElement) (parent : option HTMLElement) : HTMLElement :=
  match e with Dom t a _ _ _ => Element t a parent end.

Definition is_blank (s : string) : bool :=
  forallb JSON.is_ws (String.list_ascii_of_string s).

(** ** Sample data *)

Definition sampleDimensions : gmap string (PaperDimensions Z) :=
  <["A4"%string := {| width := 210; height := 297 |}]>
    (<["A5"%string := {| width := 148; height := 210 |}]> ∅).

Definition sampleColour (s : string) : bool := String.eqb (String.substring 0 1 s) "#".

Definition paragraph (text : string) : PMNode :=
  Node "paragraph" ∅ [Node "text" {[ "text"%string := JsString text ]} []].

Definition samplePage (size colour : string) (children : list PMNode) : PMNode :=
  Node PAGE_NODE_NAME
       (<[PAGE_NODE_ATTR_KEYS.paperSize := JsString size]>
          (<[PAGE_NODE_ATTR_KEYS.paperColour := JsString colour]> ∅))
       children.

Definition sampleDoc : PMNode :=
  Node "doc" ∅ [samplePage "A4" "#fff" [paragraph "one"];
                samplePage "A5" "#eee" [paragraph "two"; paragraph "three"]].

Definition sampleState : EditorState := {| doc := sampleDoc |}.

Definition emptyState : EditorState := {| doc := Node "doc" ∅ [paragraph "no pages"] |}.

Definition sampleEditor (s : EditorState) : Editor :=
  {| state := s;
     commands := {| getDefaultPaperSize := fun _ => "A4"%string;
                    getDefaultPaperColour := fun _ => "#fff"%string |} |}.

Definition sampleMargins : JsValue :=
  JsObject [("top"%string, JsNumber 254 (-1)); ("right"%string, JsNumber 20 0);
            ("bottom"%string, JsNumber 254 (-1)); ("left"%string, JsNumber 20 0)].

Definition sampleWorld : World :=
  {| tr := {| tr_doc := <[0 := samplePage "A4" "#fff" []]> (<[7 := paragraph "p"]> ∅);
              tr_size := 10;
              tr_steps := [] |};
     dispatched := [];
     console := [] |}.

(** A merge in which the later object wins. *)
Definition sampleMerge (a b : gmap string JsValue) : gmap string JsValue := b ∪ a.

Definition samplePixels (mm : option Z) : option Z :=
  match mm with
  | Some mm => Some (mm * 96 / 25)
  | None => None
  end.

(** * Properties *)

(** ** The paper geometry table *)

Section PaperTable.

Variable number : Type.
Variable paperDimensions : gmap string (PaperDimensions number).
Variable DEFAULT_PAPER_SIZE : PaperSize.

Lemma isValidPaperSize_own (paperSize : PaperSize) (d : PaperDimensions number) :
  paperDimensions !! paperSize = Some d ->
  isValidPaperSize number paperDimensions paperSize = true.
Proof. intros H. unfold isValidPaperSize, js_in, PaperSize in *. rewrite H. reflexivity. Qed.

Lemma isValidPaperSize_false (paperSize : PaperSize) :
  isValidPaperSize number paperDimensions paperSize = false <->
  paperDimensions !! paperSize = None /\ inherited paperSize = false.
Proof.
  unfold isValidPaperSize, js_in, PaperSize in *.
  destruct (paperDimensions !! paperSize) as [d|].
  - split; [discriminate | intros [H _]; discriminate].
  - split; [intros H; split; [reflexivity | exact H] | intros [_ H]; exact H].
Qed.

Lemma getPaperDimensions_valid (paperSize : PaperSize) :
  isValidPaperSize number paperDimensions paperSize = true ->
  getPaperDimensions number paperDimensions DEFAULT_PAPER_SIZE paperSize =
  js_index paperDimensions paperSize.
Proof. intros H. unfold getPaperDimensions. rewrite H. reflexivity. Qed.

Lemma getPaperDimensions_invalid (paperSize : PaperSize) :
  isValidPaperSize number paperDimensions paperSize = false ->
  getPaperDimensions number paperDimensions DEFAULT_PAPER_SIZE paperSize =
  js_index paperDimensions DEFAULT_PAPER_SIZE.
Proof. intros H. unfold getPaperDimensions. rewrite H. reflexivity. Qed.

(** For an identifier that is not a name inherited from [Object.prototype],
    and a default that is a key of the table, [getPaperDimensions] answers
    dimensions: the identifier's own entry when it is a key of the table, the
    default identifier's entry when it is not. *)
Lemma getPaperDimensions_total (paperSize : PaperSize) (d0 : PaperDimensions number) :
  paperDimensions !! DEFAULT_PAPER_SIZE = Some d0 ->
  (forall d, paperDimensions !! paperSize = Some d ->
             getPaperDimensions number paperDimensions DEFAULT_PAPER_SIZE paperSize = Own d) /\
  (paperDimensions !! paperSize = None -> inherited paperSize = false ->
   getPaperDimensions number paperDimensions DEFAULT_PAPER_SIZE paperSize = Own d0).
Proof.
  intros Hdefault. split.
  - intros d Hd. rewrite (getPaperDimensions_valid _ (isValidPaperSize_own _ _ Hd)).
    unfold js_index, PaperSize in *. rewrite Hd. reflexivity.
  - intros Hnone Hplain.
    rewrite getPaperDimensions_invalid by (apply isValidPaperSize_false; auto).
    unfold js_index, PaperSize in *. rewrite Hdefault. reflexivity.
Qed.

(** C7, where the code departs from it. An identifier that is not a key of
    the table but is the name of a property the table inherits passes the
    validity check, and [getPaperDimensions] answers that inherited property:
    not the default identifier's dimensions, nor any dimensions. *)
Theorem getPaperDimensions_inherited_name (name : PaperSize) :
  paperDimensions !! name = None ->
  inherited name = true ->
  isValidPaperSize number paperDimensions name = true /\
  getPaperDimensions number paperDimensions DEFAULT_PAPER_SIZE name = Inherited name /\
  (forall d, getPaperDimensions number paperDimensions DEFAULT_PAPER_SIZE name <> Own d).
Proof.
  intros Hnone Hinherited.
  assert (isValidPaperSize number paperDimensions name = true) as Hvalid.
  { unfold isValidPaperSize, js_in, PaperSize in *. rewrite Hnone. exact Hinherited. }
  assert (getPaperDimensions number paperDimensions DEFAULT_PAPER_SIZE name = Inherited name)
    as Hread.
  { rewrite (getPaperDimensions_valid _ Hvalid). unfold js_index, PaperSize in *.
    rewrite Hnone, Hinherited. reflexivity. }
  split; [exact Hvalid|]. split; [exact Hread|].
  intros d. rewrite Hread. discriminate.
Qed.

End PaperTable.

Lemma getPaperDimensions_inherited_name_witness :
  isValidPaperSize Z sampleDimensions "toString" = true /\
  getPaperDimensions Z sampleDimensions "A4" "toString" = Inherited "toString".
Proof.
  destruct (getPaperDimensions_inherited_name Z sampleDimensions "A4" "toString"
              eq_refl eq_refl) as (Hvalid & Hread & _).
  split; [exact Hvalid | exact Hread].
Defined.

Example getPaperDimensions_A5 :
  getPaperDimensions Z sampleDimensions "A4" "A5" = Own {| width := 148; height := 210 |}.
Proof. reflexivity. Qed.

Example getPaperDimensions_unknown :
  getPaperDimensions Z sampleDimensions "A4" "Tabloid" = Own {| width := 210; height := 297 |}.
Proof. reflexivity. Qed.

(** ** The page attribute resolver *)

Lemma count_app (p : Event -> bool) (t1 t2 : list Event) :
  count p (t1 ++ t2) = (count p t1 + count p t2)%nat.
Proof.
  induction t1 as [|e t1 IH]; simpl; [reflexivity|].
  destruct (p e); simpl; rewrite IH; reflexivity.
Qed.

Lemma numPages_pos (state : EditorState) :
  doesDocHavePageNodes state = true <-> 1 <= numPages (doc state).
Proof.
  unfold doesDocHavePageNodes, numPages.
  destruct (pageNodesIn (doc state)); simpl length; split;
    try discriminate; try reflexivity; lia.
Qed.

Lemma doesDocHavePageNodes_false (state : EditorState) :
  doesDocHavePageNodes state = false <-> pageNodesIn (doc state) = [].
Proof.
  unfold doesDocHavePageNodes.
  destruct (pageNodesIn (doc state)); split; congruence.
Qed.

Lemma isPageNumInRange_spec (d : PMNode) (pageNum : Z) :
  isPageNumInRange d pageNum = true <-> 0 <= pageNum < numPages d.
Proof. unfold isPageNumInRange, getLastPageNum. lia. Qed.

(** The last page number of a document with pages is in range. *)
Lemma getLastPageNum_in_range (state : EditorState) :
  doesDocHavePageNodes state = true ->
  isPageNumInRange (doc state) (getLastPageNum (doc state)) = true.
Proof.
  intros H. apply numPages_pos in H.
  apply isPageNumInRange_spec. unfold getLastPageNum. lia.
Qed.

Section Resolver.

Context {T : Type}.
Variable getDefault : unit -> T.
Variable getNodeAttribute : PMNode -> Nullable T.

Lemma getPageAttribute_pageless (fuel : nat) (state : EditorState) (pageNum : Z) :
  doesDocHavePageNodes state = false ->
  getPageAttribute (S fuel) state pageNum getDefault getNodeAttribute =
  Some (getDefault tt, [CallDoesDocHavePageNodes; CallGetDefault]).
Proof.
  intros H. cbn [getPageAttribute]. unfold bind, call. rewrite H. reflexivity.
Qed.

(** A page number in range is resolved without recursion: the trace starts
    with the pageless check and holds no diagnostic. *)
Lemma getPageAttribute_in_range (state : EditorState) (pageNum : Z) :
  doesDocHavePageNodes state = true ->
  isPageNumInRange (doc state) pageNum = true ->
  exists v rest,
    (forall fuel, getPageAttribute (S fuel) state pageNum getDefault getNodeAttribute =
                  Some (v, CallDoesDocHavePageNodes :: CallIsPageNumInRange pageNum ::
                           CallGetPageNodeByPageNum pageNum :: rest)) /\
    count is_diagnostic rest = 0%nat /\
    count is_node_lookup rest = 0%nat.
Proof.
  intros Hpages Hrange.
  destruct (getPageNodeByPageNum (doc state) pageNum) as [pageNode|] eqn:Hnode.
  - destruct (getNodeAttribute pageNode) as [value|] eqn:Hattr.
    + exists value, [CallGetNodeAttribute pageNode]. repeat split.
      intros fuel. cbn [getPageAttribute]. unfold bind, call, ret.
      rewrite Hpages, Hrange. cbn. rewrite Hnode, Hattr. reflexivity.
    + exists (getDefault tt), [CallGetNodeAttribute pageNode; CallGetDefault]. repeat split.
      intros fuel. cbn [getPageAttribute]. unfold bind, call, ret.
      rewrite Hpages, Hrange. cbn. rewrite Hnode, Hattr. reflexivity.
  - exists (getDefault tt), [CallGetDefault]. repeat split.
    intros fuel. cbn [getPageAttribute]. unfold bind, call, ret.
    rewrite Hpages, Hrange. cbn. rewrite Hnode. reflexivity.
Qed.

(** One unfolding of the retry: the warning, the last page number, and the
    whole resolution again for it. *)
Lemma getPageAttribute_out_of_range (fuel : nat) (state : EditorState) (pageNum : Z) :
  doesDocHavePageNodes state = true ->
  isPageNumInRange (doc state) pageNum = false ->
  getPageAttribute (S fuel) state pageNum getDefault getNodeAttribute =
  match getPageAttribute fuel state (getLastPageNum (doc state)) getDefault getNodeAttribute with
  | Some (v, t) =>
      Some (v, [CallDoesDocHavePageNodes; CallIsPageNumInRange pageNum;
                Console (out_of_range_warning pageNum); CallGetLastPageNum] ++ t)
  | None => None
  end.
Proof.
  intros Hpages Hrange. cbn [getPageAttribute].
  unfold handleOutOfRangePageNum, bind, call. rewrite Hpages, Hrange. cbn.
  destruct (getPageAttribute fuel state (getLastPageNum (doc state)) getDefault getNodeAttribute)
    as [[v t]|]; reflexivity.
Qed.

End Resolver.

(** C8. In a document without page nodes the resolver answers the default
    provider's value for every page number, and all it does is the pageless
    check and the call of the provider: no range check, no retry, no node
    lookup. The same holds for the four public resolvers. *)
Theorem getPageAttribute_no_pages {T : Type} (getDefault : unit -> T)
    (getNodeAttribute : PMNode -> Nullable T) (DEFAULT_PAPER_SIZE DEFAULT_PAPER_COLOUR : string)
    (cmds : Commands) (st : EditorState) (pageNum : Z) (fuel : nat) :
  pageNodesIn (doc st) = [] ->
  getPageAttribute (S fuel) st pageNum getDefault getNodeAttribute =
    Some (getDefault tt, [CallDoesDocHavePageNodes; CallGetDefault]) /\
  getPageNumPaperSize (S fuel) {| state := st; commands := cmds |} pageNum =
    Some (JsString (getDefaultPaperSize cmds tt), [CallDoesDocHavePageNodes; CallGetDefault]) /\
  getPageNumPaperSizeFromState DEFAULT_PAPER_SIZE (S fuel) st pageNum =
    Some (JsString DEFAULT_PAPER_SIZE, [CallDoesDocHavePageNodes; CallGetDefault]) /\
  getPageNumPaperColour (S fuel) {| state := st; commands := cmds |} pageNum =
    Some (JsString (getDefaultPaperColour cmds tt), [CallDoesDocHavePageNodes; CallGetDefault]) /\
  getPageNumPaperColourFromState DEFAULT_PAPER_COLOUR (S fuel) st pageNum =
    Some (JsString DEFAULT_PAPER_COLOUR, [CallDoesDocHavePageNodes; CallGetDefault]).
Proof.
  intros Hnone. apply doesDocHavePageNodes_false in Hnone.
  unfold getPageNumPaperSize, getPageNumPaperSizeFromState,
    getPageNumPaperColour, getPageNumPaperColourFromState. cbn [state commands].
  repeat split; apply getPageAttribute_pageless; assumption.
Qed.

Lemma getPageAttribute_no_pages_witness :
  pageNodesIn (doc emptyState) = [] /\
  getPageNumPaperSizeFromState "A4" 1 emptyState 3 =
    Some (JsString "A4", [CallDoesDocHavePageNodes; CallGetDefault]).
Proof.
  split; [reflexivity|].
  exact (proj1 (proj2 (proj2
    (getPageAttribute_no_pages (fun _ => JsNull) (fun _ => None) "A4" "#fff"
       (commands (sampleEditor emptyState)) emptyState 3 0 eq_refl)))).
Defined.

Lemma getPageAttribute_clamps {T : Type} (getDefault : unit -> T)
    (getNodeAttribute : PMNode -> Nullable T) (st : EditorState) (pageNum : Z) (fuel : nat) :
  1 <= numPages (doc st) ->
  pageNum < 0 \/ numPages (doc st) <= pageNum ->
  same_value_one_warning
    (getPageAttribute (2 + fuel) st pageNum getDefault getNodeAttribute)
    (getPageAttribute (2 + fuel) st (numPages (doc st) - 1) getDefault getNodeAttribute).
Proof.
  intros HN Hout.
  assert (doesDocHavePageNodes st = true) as Hpages by (apply numPages_pos; exact HN).
  assert (isPageNumInRange (doc st) pageNum = false) as Hrange.
  { destruct (isPageNumInRange (doc st) pageNum) eqn:E; [|reflexivity].
    apply isPageNumInRange_spec in E. lia. }
  destruct (getPageAttribute_in_range getDefault getNodeAttribute st
              (getLastPageNum (doc st)) Hpages (getLastPageNum_in_range st Hpages))
    as (v & rest & Hlast & Hdiag & _).
  change (2 + fuel)%nat with (S (S fuel)).
  rewrite (getPageAttribute_out_of_range _ _ (S fuel) st pageNum Hpages Hrange).
  fold (getLastPageNum (doc st)). rewrite !Hlast.
  eexists _, _, _. split; [reflexivity|]. split; [reflexivity|].
  unfold out_of_range_warning. simpl.
  split; [rewrite Hdiag; reflexivity|].
  f_equal.
  assert (forall t, count is_diagnostic t = 0%nat -> count is_warning t = 0%nat) as Hw.
  { induction t as [|e t IH]; simpl; [reflexivity|].
    destruct e as [| | | | | |[]]; simpl; try exact IH; discriminate. }
  apply Hw. exact Hdiag.
Qed.

(** C5. In a document with [N >= 1] pages, every page number below [0] or
    from [N] upwards is resolved to the value page [N - 1] is resolved to,
    and the resolution logs exactly one diagnostic, a warning; so do the
    four public resolvers. *)
Theorem getPageAttribute_out_of_range_uses_last_page {T : Type} (getDefault : unit -> T)
    (getNodeAttribute : PMNode -> Nullable T) (DEFAULT_PAPER_SIZE DEFAULT_PAPER_COLOUR : string)
    (cmds : Commands) (st : EditorState) (pageNum : Z) (fuel : nat) :
  1 <= numPages (doc st) ->
  pageNum < 0 \/ numPages (doc st) <= pageNum ->
  let editor := {| state := st; commands := cmds |} in
  let last := numPages (doc st) - 1 in
  same_value_one_warning
    (getPageAttribute (2 + fuel) st pageNum getDefault getNodeAttribute)
    (getPageAttribute (2 + fuel) st last getDefault getNodeAttribute) /\
  same_value_one_warning
    (getPageNumPaperSize (2 + fuel) editor pageNum)
    (getPageNumPaperSize (2 + fuel) editor last) /\
  same_value_one_warning
    (getPageNumPaperSizeFromState DEFAULT_PAPER_SIZE (2 + fuel) st pageNum)
    (getPageNumPaperSizeFromState DEFAULT_PAPER_SIZE (2 + fuel) st last) /\
  same_value_one_warning
    (getPageNumPaperColour (2 + fuel) editor pageNum)
    (getPageNumPaperColour (2 + fuel) editor last) /\
  same_value_one_warning
    (getPageNumPaperColourFromState DEFAULT_PAPER_COLOUR (2 + fuel) st pageNum)
    (getPageNumPaperColourFromState DEFAULT_PAPER_COLOUR (2 + fuel) st last).
Proof.
  intros HN Hout editor last.
  unfold getPageNumPaperSize, getPageNumPaperSizeFromState,
    getPageNumPaperColour, getPageNumPaperColourFromState, editor, last.
  cbn [state commands].
  repeat split; apply getPageAttribute_clamps; assumption.
Qed.

Lemma getPageAttribute_out_of_range_uses_last_page_witness :
  1 <= numPages (doc sampleState) /\
  (7 < 0 \/ numPages (doc sampleState) <= 7) /\
  same_value_one_warning
    (getPageNumPaperSizeFromState "A4" 2 sampleState 7)
    (getPageNumPaperSizeFromState "A4" 2 sampleState 1).
Proof.
  assert (1 <= numPages (doc sampleState)) as H1 by (vm_compute; discriminate).
  assert (7 < 0 \/ numPages (doc sampleState) <= 7) as H2
    by (right; vm_compute; discriminate).
  split; [exact H1|]. split; [exact H2|].
  exact (proj1 (proj2 (proj2
    (getPageAttribute_out_of_range_uses_last_page (fun _ => JsNull) (fun _ => None)
       "A4" "#fff" (commands (sampleEditor sampleState)) sampleState 7 0 H1 H2)))).
Defined.

Example getPageNumPaperSizeFromState_page_7 :
  fst <$> getPageNumPaperSizeFromState "A4" 2 sampleState 7 = Some (JsString "A5").
Proof. reflexivity. Qed.

Example getPageNumPaperSizeFromState_page_minus_1 :
  fst <$> getPageNumPaperSizeFromState "A4" 2 sampleState (-1) = Some (JsString "A5").
Proof. reflexivity. Qed.

(** C6. The resolution ends for every state and page number: two levels of
    recursion are enough, and more change nothing. It logs at most one
    warning. When it retries (the document has pages and the page number is
    out of range), what follows the warning is the resolution for the last
    page number, which starts again with the pageless check, logs no warning
    and so retries no further. *)
Theorem getPageAttribute_retry_bounded {T : Type} (getDefault : unit -> T)
    (getNodeAttribute : PMNode -> Nullable T) (st : EditorState) (pageNum : Z) :
  exists v t,
    (forall fuel,
       getPageAttribute (2 + fuel) st pageNum getDefault getNodeAttribute = Some (v, t)) /\
    (count is_warning t <= 1)%nat /\
    (doesDocHavePageNodes st = true ->
     isPageNumInRange (doc st) pageNum = false ->
     exists t',
       t = [CallDoesDocHavePageNodes; CallIsPageNumInRange pageNum;
            Console (out_of_range_warning pageNum); CallGetLastPageNum] ++
           CallDoesDocHavePageNodes :: t' /\
       (forall fuel,
          getPageAttribute (1 + fuel) st (getLastPageNum (doc st)) getDefault getNodeAttribute =
          Some (v, CallDoesDocHavePageNodes :: t')) /\
       count is_warning t' = 0%nat) /\
    (doesDocHavePageNodes st = false \/ isPageNumInRange (doc st) pageNum = true ->
     count is_warning t = 0%nat).
Proof.
  assert (forall t, count is_diagnostic t = 0%nat -> count is_warning t = 0%nat) as Hw.
  { induction t as [|e t IH]; simpl; [reflexivity|].
    destruct e as [| | | | | |[]]; simpl; try exact IH; discriminate. }
  destruct (doesDocHavePageNodes st) eqn:Hpages.
  - destruct (isPageNumInRange (doc st) pageNum) eqn:Hrange.
    + destruct (getPageAttribute_in_range getDefault getNodeAttribute st pageNum Hpages Hrange)
        as (v & rest & Hres & Hdiag & _).
      exists v, (CallDoesDocHavePageNodes :: CallIsPageNumInRange pageNum ::
                 CallGetPageNodeByPageNum pageNum :: rest).
      split; [intros fuel; apply Hres|].
      simpl. rewrite (Hw _ Hdiag).
      split; [lia|]. split; [discriminate|]. reflexivity.
    + destruct (getPageAttribute_in_range getDefault getNodeAttribute st
                  (getLastPageNum (doc st)) Hpages (getLastPageNum_in_range st Hpages))
        as (v & rest & Hlast & Hdiag & _).
      eexists v, _. split.
      * intros fuel. change (2 + fuel)%nat with (S (S fuel)).
        rewrite (getPageAttribute_out_of_range _ _ (S fuel) st pageNum Hpages Hrange).
        rewrite Hlast. reflexivity.
      * unfold out_of_range_warning. simpl. rewrite (Hw _ Hdiag).
        split; [lia|]. split.
        -- intros _ _. eexists. split; [reflexivity|].
           split; [intros fuel; apply Hlast|].
           simpl. apply Hw. exact Hdiag.
        -- intros [H|H]; discriminate.
  - exists (getDefault tt), [CallDoesDocHavePageNodes; CallGetDefault].
    split; [intros fuel; apply getPageAttribute_pageless; exact Hpages|].
    simpl. split; [lia|]. split; [discriminate|]. reflexivity.
Qed.

Lemma getPageAttribute_retry_bounded_witness :
  exists v t,
    (forall fuel,
       getPageAttribute (2 + fuel) sampleState 9 (fun _ => JsString "A4")
         (fun n => nullable (attrs n !! PAGE_NODE_PAPER_SIZE_ATTR)) = Some (v, t)) /\
    (count is_warning t <= 1)%nat.
Proof.
  destruct (getPageAttribute_retry_bounded (fun _ => JsString "A4")
              (fun n => nullable (attrs n !! PAGE_NODE_PAPER_SIZE_ATTR)) sampleState 9)
    as (v & t & Hres & Hwarn & _).
  exists v, t. split; assumption.
Defined.

(** One level of recursion is not enough for an out-of-range page number. *)
Example getPageAttribute_needs_two_levels :
  getPageAttribute 1 sampleState 9 (fun _ => JsString "A4") getPageNodePaperSize = None.
Proof. reflexivity. Qed.

(** ** The page attribute mutator *)

Section Setters.

Variable number : Type.
Variable paperDimensions : gmap string (PaperDimensions number).
Variable isValidColour : string -> bool.

Local Abbreviation setSize := (setPageNodePosPaperSize number paperDimensions).
Local Abbreviation setSizeAt := (setPagePaperSize number paperDimensions).
Local Abbreviation setColour := (setPageNodePosPaperColour isValidColour).

Lemma rejected_log (d : Diagnostic) (w : World) : rejected (false, log d w) w.
Proof. repeat split. Qed.

Lemma rejected_same (w : World) : rejected (false, w) w.
Proof. repeat split. Qed.

(** Whatever the size setter answers [false] to, it rejected. *)
Lemma setPageNodePosPaperSize_false dispatch pagePos pageNode paperSize w :
  fst (setSize dispatch pagePos pageNode paperSize w) = false ->
  rejected (setSize dispatch pagePos pageNode paperSize w) w.
Proof.
  unfold setPageNodePosPaperSize. destruct dispatch; [intros _; apply rejected_same|].
  destruct (negb (isValidPaperSize number paperDimensions paperSize));
    [intros _; apply rejected_log|].
  destruct (negb (isPageNode pageNode)); [intros _; apply rejected_log|].
  destruct (strict_eq_string (getPageNodePaperSize pageNode) paperSize);
    [intros _; apply rejected_same|].
  simpl. discriminate.
Qed.

Lemma setPageNodePosPaperColour_false dispatch pagePos pageNode paperColour w :
  fst (setColour dispatch pagePos pageNode paperColour w) = false ->
  rejected (setColour dispatch pagePos pageNode paperColour w) w.
Proof.
  unfold setPageNodePosPaperColour. destruct dispatch; [intros _; apply rejected_same|].
  destruct (negb (isValidColour paperColour)); [intros _; apply rejected_log|].
  destruct (negb (isPageNode pageNode)); [intros _; apply rejected_log|].
  destruct (strict_eq_string (getPageNodePaperColour pageNode) paperColour);
    [intros _; apply rejected_same|].
  simpl. discriminate.
Qed.

Lemma setPagePaperSize_at_node dispatch pagePos pageNode paperSize w :
  nodeAt (tr w) pagePos = Return (Some pageNode) ->
  setSizeAt dispatch pagePos paperSize w =
  (Return (fst (setSize dispatch pagePos pageNode paperSize w)),
   snd (setSize dispatch pagePos pageNode paperSize w)).
Proof.
  intros H. unfold setPagePaperSize. rewrite H.
  destruct (setSize dispatch pagePos pageNode paperSize w). reflexivity.
Qed.

Lemma setPagePaperSize_false dispatch pagePos paperSize w :
  fst (setSizeAt dispatch pagePos paperSize w) = Return false ->
  rejected_call (setSizeAt dispatch pagePos paperSize w) w.
Proof.
  destruct (nodeAt (tr w) pagePos) as [[pageNode|]|e] eqn:Hnode.
  - rewrite (setPagePaperSize_at_node _ _ _ _ _ Hnode). cbn [fst snd].
    intros [= H]. apply setPageNodePosPaperSize_false in H.
    destruct H as (H1 & H2 & H3). unfold rejected_call. cbn [fst snd].
    rewrite H1. auto.
  - unfold setPagePaperSize. rewrite Hnode. intros _. repeat split.
  - unfold setPagePaperSize. rewrite Hnode. discriminate.
Qed.

(** A position outside the document makes the setter by position raise, before
    anything is logged, written or dispatched. *)
Lemma setPagePaperSize_raises dispatch pagePos paperSize w :
  pagePos < 0 \/ tr_size (tr w) < pagePos ->
  setSizeAt dispatch pagePos paperSize w = (Throw RangeError, w).
Proof.
  intros H. unfold setPagePaperSize, nodeAt.
  destruct (Z.ltb_spec pagePos 0), (Z.ltb_spec (tr_size (tr w)) pagePos);
    try reflexivity; lia.
Qed.

Lemma setPageNodePosPaperSize_fails dispatch pagePos pageNode paperSize w :
  dispatch = DispatchUndefined \/
  isValidPaperSize number paperDimensions paperSize = false \/
  isPageNode pageNode = false ->
  fst (setSize dispatch pagePos pageNode paperSize w) = false.
Proof.
  unfold setPageNodePosPaperSize. destruct dispatch; [reflexivity|].
  destruct (isValidPaperSize number paperDimensions paperSize); [|reflexivity].
  destruct (isPageNode pageNode); [|reflexivity].
  intros [H|[H|H]]; discriminate.
Qed.

Lemma setPageNodePosPaperColour_fails dispatch pagePos pageNode paperColour w :
  dispatch = DispatchUndefined \/
  isValidColour paperColour = false \/
  isPageNode pageNode = false ->
  fst (setColour dispatch pagePos pageNode paperColour w) = false.
Proof.
  unfold setPageNodePosPaperColour. destruct dispatch; [reflexivity|].
  destruct (isValidColour paperColour); [|reflexivity].
  destruct (isPageNode pageNode); [|reflexivity].
  intros [H|[H|H]]; discriminate.
Qed.

Lemma setPagePaperSize_fails dispatch pagePos paperSize w (found : Nullable PMNode) :
  nodeAt (tr w) pagePos = Return found ->
  dispatch = DispatchUndefined \/
  isValidPaperSize number paperDimensions paperSize = false \/
  found = None \/
  (exists node, found = Some node /\ isPageNode node = false) ->
  fst (setSizeAt dispatch pagePos paperSize w) = Return false.
Proof.
  intros Hnode Hfail. destruct found as [pageNode|].
  - rewrite (setPagePaperSize_at_node _ _ _ _ _ Hnode). cbn [fst]. f_equal.
    apply setPageNodePosPaperSize_fails.
    destruct Hfail as [H|[H|[H|(node & [= <-] & H)]]]; auto. discriminate H.
  - unfold setPagePaperSize. rewrite Hnode. reflexivity.
Qed.

(** C4, as the setters have it. Every failure path that returns is a
    rejection: with no dispatch, a value the validity check refuses, a node
    that is not a page node, or a position inside the document that holds no
    node, the call answers [false], leaves the transaction as it was and does
    not call [dispatch]; whenever a setter answers [false] it has rejected.
    A position outside the document is not such a path: there the setter by
    position raises the [RangeError] of [nodeAt], having done nothing. *)
Theorem setters_fail_atomically (dispatch : Dispatch) (pagePos : Z) (pageNode : PMNode)
    (paperSize : PaperSize) (paperColour : string) (w : World) :
  (dispatch = DispatchUndefined \/
   isValidPaperSize number paperDimensions paperSize = false \/
   isPageNode pageNode = false ->
   rejected (setSize dispatch pagePos pageNode paperSize w) w) /\
  (dispatch = DispatchUndefined \/
   isValidColour paperColour = false \/
   isPageNode pageNode = false ->
   rejected (setColour dispatch pagePos pageNode paperColour w) w) /\
  (forall found,
     nodeAt (tr w) pagePos = Return found ->
     dispatch = DispatchUndefined \/
     isValidPaperSize number paperDimensions paperSize = false \/
     found = None \/
     (exists node, found = Some node /\ isPageNode node = false) ->
     rejected_call (setSizeAt dispatch pagePos paperSize w) w) /\
  (pagePos < 0 \/ tr_size (tr w) < pagePos ->
   setSizeAt dispatch pagePos paperSize w = (Throw RangeError, w)) /\
  (fst (setSize dispatch pagePos pageNode paperSize w) = false ->
   rejected (setSize dispatch pagePos pageNode paperSize w) w) /\
  (fst (setColour dispatch pagePos pageNode paperColour w) = false ->
   rejected (setColour dispatch pagePos pageNode paperColour w) w) /\
  (fst (setSizeAt dispatch pagePos paperSize w) = Return false ->
   rejected_call (setSizeAt dispatch pagePos paperSize w) w).
Proof.
  split; [|split; [|split; [|split; [|split; [|split]]]]].
  - intros H. apply setPageNodePosPaperSize_false, setPageNodePosPaperSize_fails, H.
  - intros H. apply setPageNodePosPaperColour_false, setPageNodePosPaperColour_fails, H.
  - intros found Hnode H. apply setPagePaperSize_false.
    apply (setPagePaperSize_fails _ _ _ _ found); assumption.
  - apply setPagePaperSize_raises.
  - apply setPageNodePosPaperSize_false.
  - apply setPageNodePosPaperColour_false.
  - apply setPagePaperSize_false.
Qed.

End Setters.

Lemma setters_fail_atomically_witness :
  rejected (setPageNodePosPaperSize Z sampleDimensions DispatchFn 0
              (samplePage "A4" "#fff" []) "Tabloid" sampleWorld) sampleWorld /\
  rejected_call (setPagePaperSize Z sampleDimensions DispatchFn 3 "A5" sampleWorld)
    sampleWorld /\
  rejected_call (setPagePaperSize Z sampleDimensions DispatchFn 7 "A5" sampleWorld)
    sampleWorld /\
  setPagePaperSize Z sampleDimensions DispatchFn 99 "A5" sampleWorld =
    (Throw RangeError, sampleWorld).
Proof.
  split; [|split; [|split]].
  - apply (proj1 (setters_fail_atomically Z sampleDimensions sampleColour DispatchFn 0
                    (samplePage "A4" "#fff" []) "Tabloid" "#000" sampleWorld)).
    right. left. reflexivity.
  - apply (proj1 (proj2 (proj2 (setters_fail_atomically Z sampleDimensions sampleColour
                    DispatchFn 3 (samplePage "A4" "#fff" []) "A5" "#000" sampleWorld)))
             None eq_refl).
    right. right. left. reflexivity.
  - apply (proj1 (proj2 (proj2 (setters_fail_atomically Z sampleDimensions sampleColour
                    DispatchFn 7 (samplePage "A4" "#fff" []) "A5" "#000" sampleWorld)))
             (Some (paragraph "p")) eq_refl).
    right. right. right. exists (paragraph "p"). split; reflexivity.
  - apply (proj1 (proj2 (proj2 (proj2 (setters_fail_atomically Z sampleDimensions
                    sampleColour DispatchFn 99 (samplePage "A4" "#fff" []) "A5" "#000"
                    sampleWorld))))).
    right. reflexivity.
Defined.

(** A failure path that is not a rejection. Position 99 lies outside the
    document and holds no node: the setter by position does not answer
    [false] there, it raises, with nothing logged, written or dispatched. *)
Lemma setters_failure_paths_not_all_rejections :
  tr_doc (tr sampleWorld) !! 99 = None /\
  setPagePaperSize Z sampleDimensions DispatchFn 99 "A5" sampleWorld =
    (Throw RangeError, sampleWorld) /\
  fst (setPagePaperSize Z sampleDimensions DispatchFn 99 "A5" sampleWorld) <> Return false.
Proof. split; [reflexivity|]. split; [reflexivity | discriminate]. Qed.

(** A name the table only inherits is no paper size of the table, yet it
    passes the validity check of the size setter, which writes it to the
    page node and dispatches. *)
Example setPageNodePosPaperSize_inherited_name :
  sampleDimensions !! "toString"%string = None /\
  fst (setPageNodePosPaperSize Z sampleDimensions DispatchFn 0
         (samplePage "A4" "#fff" []) "toString" sampleWorld) = true /\
  length (dispatched (snd (setPageNodePosPaperSize Z sampleDimensions DispatchFn 0
                             (samplePage "A4" "#fff" []) "toString" sampleWorld))) = 1%nat.
Proof. vm_compute. repeat split. Qed.

Section SettersIdempotence.

Variable number : Type.
Variable paperDimensions : gmap string (PaperDimensions number).
Variable isValidColour : string -> bool.

Local Abbreviation setSize := (setPageNodePosPaperSize number paperDimensions).
Local Abbreviation setColour := (setPageNodePosPaperColour isValidColour).

Lemma isPageNode_setNodeAttr attr value node :
  isPageNode (setNodeAttr attr value node) = isPageNode node.
Proof. reflexivity. Qed.

Lemma strict_eq_string_set attr (s : string) node :
  strict_eq_string (nullable (attrs (setNodeAttr attr (JsString s) node) !! attr)) s = true.
Proof.
  unfold setNodeAttr. cbn [attrs]. rewrite lookup_insert_eq. simpl.
  apply String.eqb_refl.
Qed.

Lemma nodeAt_setPageNodeAttribute t pagePos pageNode attr value :
  nodeAt t pagePos = Return (Some pageNode) ->
  nodeAt (setPageNodeAttribute t pagePos pageNode attr value) pagePos =
  Return (Some (setNodeAttr attr value pageNode)).
Proof.
  unfold nodeAt, setPageNodeAttribute. cbn [tr_doc tr_size].
  destruct ((pagePos <? 0) || (tr_size t <? pagePos)); [discriminate|].
  intros [= H]. rewrite lookup_alter. case_decide; [|congruence].
  rewrite H. reflexivity.
Qed.

Lemma setPageNodePosPaperSize_already_set dispatch pagePos pageNode paperSize w :
  strict_eq_string (getPageNodePaperSize pageNode) paperSize = true ->
  rejected (setSize dispatch pagePos pageNode paperSize w) w.
Proof.
  intros H. apply setPageNodePosPaperSize_false.
  unfold setPageNodePosPaperSize. destruct dispatch; [reflexivity|].
  destruct (negb (isValidPaperSize number paperDimensions paperSize)); [reflexivity|].
  destruct (negb (isPageNode pageNode)); [reflexivity|].
  rewrite H. reflexivity.
Qed.

Lemma setPageNodePosPaperColour_already_set dispatch pagePos pageNode paperColour w :
  strict_eq_string (getPageNodePaperColour pageNode) paperColour = true ->
  rejected (setColour dispatch pagePos pageNode paperColour w) w.
Proof.
  intros H. apply setPageNodePosPaperColour_false.
  unfold setPageNodePosPaperColour. destruct dispatch; [reflexivity|].
  destruct (negb (isValidColour paperColour)); [reflexivity|].
  destruct (negb (isPageNode pageNode)); [reflexivity|].
  rewrite H. reflexivity.
Qed.

Lemma setPageNodePosPaperSize_twice pagePos pageNode paperSize w :
  isValidPaperSize number paperDimensions paperSize = true ->
  nodeAt (tr w) pagePos = Return (Some pageNode) ->
  isPageNode pageNode = true ->
  strict_eq_string (getPageNodePaperSize pageNode) paperSize = false ->
  exists w1 pageNode1,
    setSize DispatchFn pagePos pageNode paperSize w = (true, w1) /\
    dispatched w1 = dispatched w ++ [tr w1] /\
    nodeAt (tr w1) pagePos = Return (Some pageNode1) /\
    setSize DispatchFn pagePos pageNode1 paperSize w1 = (false, w1).
Proof.
  intros Hvalid Hnode Hpage Hdiff.
  eexists _, (setNodeAttr PAGE_NODE_PAPER_SIZE_ATTR (JsString paperSize) pageNode).
  split; [|split; [|split]].
  - unfold setPageNodePosPaperSize. rewrite Hvalid, Hpage, Hdiff. reflexivity.
  - reflexivity.
  - cbn [tr call_dispatch write]. apply nodeAt_setPageNodeAttribute. exact Hnode.
  - unfold setPageNodePosPaperSize at 1. rewrite Hvalid, isPageNode_setNodeAttr, Hpage.
    unfold getPageNodePaperSize. rewrite strict_eq_string_set. reflexivity.
Qed.

Lemma setPageNodePosPaperColour_twice pagePos pageNode paperColour w :
  isValidColour paperColour = true ->
  nodeAt (tr w) pagePos = Return (Some pageNode) ->
  isPageNode pageNode = true ->
  strict_eq_string (getPageNodePaperColour pageNode) paperColour = false ->
  exists w1 pageNode1,
    setColour DispatchFn pagePos pageNode paperColour w = (true, w1) /\
    dispatched w1 = dispatched w ++ [tr w1] /\
    nodeAt (tr w1) pagePos = Return (Some pageNode1) /\
    setColour DispatchFn pagePos pageNode1 paperColour w1 = (false, w1).
Proof.
  intros Hvalid Hnode Hpage Hdiff.
  eexists _, (setNodeAttr PAGE_NODE_PAPER_COLOUR_ATTR (JsString paperColour) pageNode).
  split; [|split; [|split]].
  - unfold setPageNodePosPaperColour. rewrite Hvalid, Hpage, Hdiff. reflexivity.
  - reflexivity.
  - cbn [tr call_dispatch write]. apply nodeAt_setPageNodeAttribute. exact Hnode.
  - unfold setPageNodePosPaperColour at 1. rewrite Hvalid, isPageNode_setNodeAttr, Hpage.
    unfold getPageNodePaperColour. rewrite strict_eq_string_set. reflexivity.
Qed.

(** The setter by position reads the node afresh, so called twice with the
    same arguments it writes and dispatches once. *)
Lemma setPagePaperSize_twice pagePos pageNode paperSize w :
  isValidPaperSize number paperDimensions paperSize = true ->
  nodeAt (tr w) pagePos = Return (Some pageNode) ->
  isPageNode pageNode = true ->
  strict_eq_string (getPageNodePaperSize pageNode) paperSize = false ->
  exists w1,
    setPagePaperSize number paperDimensions DispatchFn pagePos paperSize w =
      (Return true, w1) /\
    dispatched w1 = dispatched w ++ [tr w1] /\
    setPagePaperSize number paperDimensions DispatchFn pagePos paperSize w1 =
      (Return false, w1).
Proof.
  intros Hvalid Hnode Hpage Hdiff.
  destruct (setPageNodePosPaperSize_twice pagePos pageNode paperSize w
              Hvalid Hnode Hpage Hdiff) as (w1 & pageNode1 & Hfirst & Hlog & Hnode1 & Hsecond).
  exists w1. unfold setPagePaperSize. rewrite Hnode, Hfirst, Hnode1, Hsecond. auto.
Qed.

(** C3. A setter given a node whose attribute already is the requested
    value rejects: it answers [false], writes nothing to the transaction and
    does not call [dispatch]. So, for a valid value that differs from the
    attribute of the page node at the position, the first call writes the
    attribute and hands the transaction to [dispatch] once, and a second call
    for the node then at that position answers [false] and changes nothing. *)
Theorem setters_idempotent (dispatch : Dispatch) (pagePos : Z) (pageNode : PMNode)
    (paperSize : PaperSize) (paperColour : string) (w : World) :
  (strict_eq_string (getPageNodePaperSize pageNode) paperSize = true ->
   rejected (setSize dispatch pagePos pageNode paperSize w) w) /\
  (strict_eq_string (getPageNodePaperColour pageNode) paperColour = true ->
   rejected (setColour dispatch pagePos pageNode paperColour w) w) /\
  (isValidPaperSize number paperDimensions paperSize = true ->
   nodeAt (tr w) pagePos = Return (Some pageNode) ->
   isPageNode pageNode = true ->
   strict_eq_string (getPageNodePaperSize pageNode) paperSize = false ->
   exists w1 pageNode1,
     setSize DispatchFn pagePos pageNode paperSize w = (true, w1) /\
     dispatched w1 = dispatched w ++ [tr w1] /\
     nodeAt (tr w1) pagePos = Return (Some pageNode1) /\
     setSize DispatchFn pagePos pageNode1 paperSize w1 = (false, w1)) /\
  (isValidColour paperColour = true ->
   nodeAt (tr w) pagePos = Return (Some pageNode) ->
   isPageNode pageNode = true ->
   strict_eq_string (getPageNodePaperColour pageNode) paperColour = false ->
   exists w1 pageNode1,
     setColour DispatchFn pagePos pageNode paperColour w = (true, w1) /\
     dispatched w1 = dispatched w ++ [tr w1] /\
     nodeAt (tr w1) pagePos = Return (Some pageNode1) /\
     setColour DispatchFn pagePos pageNode1 paperColour w1 = (false, w1)).
Proof.
  split; [|split; [|split]].
  - apply setPageNodePosPaperSize_already_set.
  - apply setPageNodePosPaperColour_already_set.
  - apply setPageNodePosPaperSize_twice.
  - apply setPageNodePosPaperColour_twice.
Qed.

End SettersIdempotence.

Lemma setters_idempotent_witness :
  rejected (setPageNodePosPaperSize Z sampleDimensions DispatchFn 0
              (samplePage "A4" "#fff" []) "A4" sampleWorld) sampleWorld /\
  exists w1 pageNode1,
    setPageNodePosPaperSize Z sampleDimensions DispatchFn 0
      (samplePage "A4" "#fff" []) "A5" sampleWorld = (true, w1) /\
    dispatched w1 = dispatched sampleWorld ++ [tr w1] /\
    nodeAt (tr w1) 0 = Return (Some pageNode1) /\
    setPageNodePosPaperSize Z sampleDimensions DispatchFn 0 pageNode1 "A5" w1 = (false, w1).
Proof.
  split.
  - apply (proj1 (setters_idempotent Z sampleDimensions sampleColour DispatchFn 0
                    (samplePage "A4" "#fff" []) "A4" "#fff" sampleWorld)).
    reflexivity.
  - apply (proj1 (proj2 (proj2 (setters_idempotent Z sampleDimensions sampleColour
                    DispatchFn 0 (samplePage "A4" "#fff" []) "A5" "#fff" sampleWorld))));
      reflexivity.
Defined.

(** The second call is a rejection only for the node as it now is in the
    transaction: handed the node object read before the first call, the
    setter writes and dispatches again. *)
Example setPageNodePosPaperSize_stale_node :
  let first := setPageNodePosPaperSize Z sampleDimensions DispatchFn 0
                 (samplePage "A4" "#fff" []) "A5" sampleWorld in
  let second := setPageNodePosPaperSize Z sampleDimensions DispatchFn 0
                  (samplePage "A4" "#fff" []) "A5" (snd first) in
  fst first = true /\ fst second = true /\ length (dispatched (snd second)) = 2%nat.
Proof. vm_compute. repeat split. Qed.

(** ** The page node: HTML recognition *)

Lemma parseHTML_accepts_spec (node : HTMLElement) :
  parseHTML_accepts node = true <->
  localName node = baseElement /\
  hasAttribute node dataPageAttribute = true /\
  (forall parent, parentElement node = Some parent ->
                  hasAttribute parent dataPageAttribute = false).
Proof.
  unfold parseHTML_accepts, matches_tag, getAttrs.
  rewrite !andb_true_iff, String.eqb_eq.
  destruct (parentElement node) as [parent|].
  - destruct (hasAttribute parent dataPageAttribute) eqn:Hparent.
    + split.
      * intros [_ H]. discriminate.
      * intros (_ & _ & H). specialize (H parent eq_refl). congruence.
    + split.
      * intros [[Hname Hattr] _]. repeat split; try assumption.
        intros parent' [= <-]. exact Hparent.
      * intros (Hname & Hattr & _). repeat split; assumption.
  - split.
    + intros [[Hname Hattr] _]. repeat split; try assumption. discriminate.
    + intros (Hname & Hattr & _). repeat split; assumption.
Qed.

(** C9, as the rule has it. The parse rule accepts an element as a page
    node if and only if the element is a [div] that carries the page marker
    attribute and its parent element, if it has one, does not carry that
    attribute; so an element whose parent carries the marker is rejected,
    and of two nested page elements only the outer one can become a page
    node. *)
Theorem parseHTML_accepts_iff (node : HTMLElement) :
  (parseHTML_accepts node = true <->
   localName node = baseElement /\
   hasAttribute node dataPageAttribute = true /\
   (forall parent, parentElement node = Some parent ->
                   hasAttribute parent dataPageAttribute = false)) /\
  (forall outer, parentElement node = Some outer ->
                 parseHTML_accepts outer = true ->
                 parseHTML_accepts node = false).
Proof.
  split; [apply parseHTML_accepts_spec|].
  intros outer Hparent Houter.
  apply parseHTML_accepts_spec in Houter. destruct Houter as (_ & Hmarked & _).
  destruct (parseHTML_accepts node) eqn:Hnode; [|reflexivity].
  apply parseHTML_accepts_spec in Hnode. destruct Hnode as (_ & _ & H).
  specialize (H outer Hparent). congruence.
Qed.

Lemma parseHTML_accepts_iff_witness :
  let outer := Element "div" {[ dataPageAttribute := "true"%string ]} None in
  let inner := Element "div" {[ dataPageAttribute := "true"%string ]} (Some outer) in
  parseHTML_accepts outer = true /\ parseHTML_accepts inner = false.
Proof.
  intros outer inner. split; [reflexivity|].
  exact (proj2 (parseHTML_accepts_iff inner) outer eq_refl eq_refl).
Defined.

(** A marked element that is not a [div] has no marked parent and is not
    accepted: the rule's selector is [div[data-page]]. *)
Lemma parseHTML_accepts_not_only_marker :
  ~ (forall node : HTMLElement,
       parseHTML_accepts node = true <->
       hasAttribute node dataPageAttribute = true /\
       (forall parent, parentElement node = Some parent ->
                       hasAttribute parent dataPageAttribute = false)).
Proof.
  intros H.
  specialize (H (Element "section" {[ dataPageAttribute := "true"%string ]} None)).
  destruct H as [_ H].
  assert (parseHTML_accepts
            (Element "section" {[ dataPageAttribute := "true"%string ]} None) = true) as Habs.
  { apply H. split; [reflexivity|]. intros parent Hp. simpl in Hp. discriminate Hp. }
  vm_compute in Habs. discriminate Habs.
Qed.

(** ** The page node: the node view *)

Section NodeViewProperties.

Variable number : Type.
Variable DEFAULT_PAPER_SIZE : string.
Variable DEFAULT_PAPER_COLOUR : string.
Variable DEFAULT_PAPER_ORIENTATION : string.
Variable DEFAULT_MARGIN_CONFIG : JsValue.
Variable DEFAULT_PAGE_GAP : JsValue.
Variable getOrientedPaperDimensions : JsValue -> JsValue -> PaperDimensions number.
Variable calculatePagePadding : JsValue -> string.
Variable mm : number -> string.

Local Abbreviation nodeView :=
  (addNodeView number DEFAULT_PAPER_SIZE DEFAULT_PAPER_COLOUR DEFAULT_PAPER_ORIENTATION
     DEFAULT_MARGIN_CONFIG getOrientedPaperDimensions calculatePagePadding mm).

Lemma style_set_style_eq property value e :
  style (set_style property value e) !! property = Some value.
Proof. destruct e. simpl. apply lookup_insert_eq. Qed.

Lemma style_set_style_ne property property' value e :
  property <> property' ->
  style (set_style property value e) !! property' = style e !! property'.
Proof. intros H. destruct e. simpl. apply lookup_insert_ne. exact H. Qed.

Lemma style_appendChild child e : style (appendChild child e) = style e.
Proof. destruct e. reflexivity. Qed.

(** C10. The node view takes the top margin from the extension's [pageGap]
    option and reads no [pageGap] attribute of the node: two nodes whose
    attributes agree on every key but [pageGap] get the same node view, and
    its [marginTop] is [mm(options.pageGap)]; yet [pageGap] is among the
    attributes the node declares, with a default. *)
Theorem addNodeView_ignores_pageGap_attribute (options : PageNodeOptions number)
    (node1 node2 : PMNode) :
  (forall key, key <> PAGE_NODE_ATTR_KEYS.pageGap -> attrs node1 !! key = attrs node2 !! key) ->
  nodeView options node1 = nodeView options node2 /\
  style (dom (nodeView options node1)) !! "marginTop"%string = Some (mm (opt_pageGap options)) /\
  In (PAGE_NODE_ATTR_KEYS.pageGap, DEFAULT_PAGE_GAP)
     (addAttributes DEFAULT_PAPER_SIZE DEFAULT_PAPER_COLOUR DEFAULT_PAPER_ORIENTATION
        DEFAULT_MARGIN_CONFIG DEFAULT_PAGE_GAP).
Proof.
  intros Hsame. split; [|split; [|simpl; tauto]].
  - unfold addNodeView, getPageNodeAttr.
    rewrite !(Hsame PAGE_NODE_ATTR_KEYS.paperSize),
            !(Hsame PAGE_NODE_ATTR_KEYS.paperOrientation),
            !(Hsame PAGE_NODE_ATTR_KEYS.pageMargins),
            !(Hsame PAGE_NODE_ATTR_KEYS.paperColour) by discriminate.
    reflexivity.
  - unfold addNodeView. cbn [dom].
    rewrite style_appendChild.
    rewrite !style_set_style_ne by discriminate.
    apply style_set_style_eq.
Qed.

End NodeViewProperties.

Lemma addNodeView_ignores_pageGap_attribute_witness :
  let view := addNodeView Z "A4" "#fff" "portrait" JsNull
                (fun _ _ => {| width := 210; height := 297 |}) (fun _ => "25mm"%string)
                (fun n => if n =? 20 then "20mm"%string else "?"%string)
                {| opt_paperSize := "A4"; opt_paperColour := "#fff";
                   opt_paperOrientation := "portrait"; opt_pageMargins := EmptyString;
                   opt_pageGap := 20 |} in
  let page gap := Node PAGE_NODE_NAME
                    (<[PAGE_NODE_ATTR_KEYS.pageGap := JsNumber gap 0]>
                       {[ PAGE_NODE_ATTR_KEYS.paperSize := JsString "A5" ]}) [] in
  view (page 5) = view (page 90) /\
  style (dom (view (page 5))) !! "marginTop"%string = Some "20mm"%string.
Proof.
  intros view page.
  refine (let H := addNodeView_ignores_pageGap_attribute Z "A4" "#fff" "portrait" JsNull
                     (JsNumber 20 0)
                     (fun _ _ => {| width := 210; height := 297 |}) (fun _ => "25mm"%string)
                     (fun n => if n =? 20 then "20mm"%string else "?"%string) _ (page 5)
                     (page 90) _ in conj (proj1 H) (proj1 (proj2 H))).
  intros key Hkey. unfold page. cbn [attrs].
  rewrite !lookup_insert_ne by congruence. reflexivity.
Defined.

(** ** The clipboard serializer *)

Section Clipboard.

Variable DomNode : Type.
Variable serializeNode : PMNode -> DomNode.

Lemma DOMSerializer_serializeFragment_app fragment target :
  DOMSerializer_serializeFragment DomNode serializeNode fragment target =
  target ++ map serializeNode fragment.
Proof.
  unfold DOMSerializer_serializeFragment. revert target.
  induction fragment as [|node fragment IH]; intros target; simpl.
  - rewrite List.app_nil_r. reflexivity.
  - rewrite IH, <- List.app_assoc. reflexivity.
Qed.

Lemma serializeFragment_from fragment (start : list DomNode) :
  serializeFragment DomNode serializeNode fragment (Some start) =
  start ++
  flat_map (fun node => if isPageNode node then map serializeNode (content node) else [])
           fragment.
Proof.
  unfold serializeFragment. revert start.
  induction fragment as [|node fragment IH]; intros start; simpl.
  - rewrite List.app_nil_r. reflexivity.
  - rewrite IH. destruct (isPageNode node).
    + rewrite DOMSerializer_serializeFragment_app, <- List.app_assoc. reflexivity.
    + reflexivity.
Qed.

(** What the override appends to the target: the DOM of the children of each
    page node of the fragment, and nothing for any other node. *)
Lemma serializeFragment_spec fragment target :
  serializeFragment DomNode serializeNode fragment target =
  match target with Some t => t | None => [] end ++
  flat_map (fun node => if isPageNode node then map serializeNode (content node) else [])
           fragment.
Proof.
  destruct target as [start|]; [apply serializeFragment_from|].
  apply (serializeFragment_from fragment []).
Qed.

(** C1, at its own example. For the fragment of one page node with
    children [A, B] followed by the non-page node [C], the override answers
    the DOM of [A] and [B] only: the DOM of [C] is computed and dropped, so
    the output is not [A, B, C]. *)
Theorem serializeFragment_drops_non_page_node :
  let A := paragraph "A" in
  let B := paragraph "B" in
  let C := paragraph "C" in
  serializeFragment DomNode serializeNode [samplePage "A4" "#fff" [A; B]; C] None =
    [serializeNode A; serializeNode B] /\
  serializeFragment DomNode serializeNode [samplePage "A4" "#fff" [A; B]; C] None <>
    [serializeNode A; serializeNode B; serializeNode C].
Proof.
  intros A B C. split; [reflexivity|].
  intros H. apply (f_equal (@length DomNode)) in H. discriminate H.
Qed.

End Clipboard.

(** ** The JSON built-ins: what is printed is read back *)

Module JSONFacts.
Import JSON.

Lemma delimited_no_digit rest : delimited rest -> starts_with_digit rest = false.
Proof.
  destruct rest as [|c rest]; [reflexivity|].
  intros [->|[->| ->]]; reflexivity.
Qed.

Lemma take_digits_chars (u : uint) (rest : list ascii) :
  starts_with_digit rest = false ->
  take_digits (chars_of_uint u ++ rest) = (u, rest).
Proof.
  intros Hrest. induction u; simpl; try (rewrite IHu; reflexivity).
  destruct rest as [|c rest]; [reflexivity|].
  simpl in *. destruct (digit_of_char c); [discriminate|reflexivity].
Qed.

Lemma to_uint_valid (n : N) : valid_int (N.to_uint n) = true.
Proof.
  destruct n as [|p]; [reflexivity|].
  assert (unorm (Pos.to_uint p) = Pos.to_uint p) as Hnorm.
  { rewrite <- (DecimalPos.Unsigned.to_of (Pos.to_uint p)).
    rewrite DecimalPos.Unsigned.of_to. reflexivity. }
  pose proof (DecimalPos.Unsigned.to_uint_nonzero p) as Hnz.
  pose proof (DecimalPos.Unsigned.to_uint_nonnil p) as Hnn.
  simpl. destruct (Pos.to_uint p) as [|d| | | | | | | | |] eqn:E; try reflexivity.
  - congruence.
  - destruct d; try reflexivity; exfalso.
    all: rewrite unorm_D0 in Hnorm; unfold unorm in Hnorm.
    all: match type of Hnorm with
         | context [nzhead ?x] =>
             pose proof (nzhead_nonzero x) as Hh; destruct (nzhead x) eqn:Ez
         end; try discriminate Hnorm; try (eapply Hh; eassumption).
Qed.

Lemma chars_of_uint_head (u : uint) (rest : list ascii) :
  u <> Nil ->
  exists c s, chars_of_uint u ++ rest = c :: s /\ starts_with_digit (c :: s) = true.
Proof.
  destruct u; [congruence|..]; intros _; simpl; eexists _, _; split; reflexivity.
Qed.

Lemma to_uint_nonnil (n : N) : N.to_uint n <> Nil.
Proof.
  destruct n as [|p]; [discriminate|]. apply DecimalPos.Unsigned.to_uint_nonnil.
Qed.

Lemma signed_abs (z : Z) : signed (z <? 0) (Z.abs_N z) = z.
Proof.
  unfold signed. destruct (Z.ltb_spec z 0); rewrite N2Z.inj_abs_N; lia.
Qed.

Lemma int_chars_sign (z : Z) (rest : list ascii) :
  parse_minus (int_chars z ++ rest) =
    (z <? 0, chars_of_uint (N.to_uint (Z.abs_N z)) ++ rest) /\
  parse_sign (int_chars z ++ rest) =
    (z <? 0, chars_of_uint (N.to_uint (Z.abs_N z)) ++ rest).
Proof.
  unfold int_chars, parse_minus, parse_sign. destruct (z <? 0); simpl.
  - split; reflexivity.
  - destruct (chars_of_uint_head (N.to_uint (Z.abs_N z)) rest (to_uint_nonnil _))
      as (c & s & Heq & Hdigit).
    rewrite Heq. simpl in Hdigit.
    assert (Ascii.eqb c "-" = false /\ Ascii.eqb c "+" = false) as [-> ->].
    { split; destruct (Ascii.eqb_spec c "-"), (Ascii.eqb_spec c "+"); subst;
        try reflexivity; discriminate. }
    split; reflexivity.
Qed.

Lemma take_digits_int (z : Z) (rest : list ascii) :
  starts_with_digit rest = false ->
  take_digits (chars_of_uint (N.to_uint (Z.abs_N z)) ++ rest) =
  (N.to_uint (Z.abs_N z), rest).
Proof. apply take_digits_chars. Qed.

Lemma parse_frac_none (rest : list ascii) :
  match rest with [] => True | c :: _ => Ascii.eqb c "." = false end ->
  parse_frac rest = Some (Nil, rest).
Proof. destruct rest as [|c rest]; [reflexivity|]. simpl. intros ->. reflexivity. Qed.

Lemma parse_exp_none (rest : list ascii) :
  delimited rest -> parse_exp rest = Some (0, rest).
Proof.
  destruct rest as [|c rest]; [reflexivity|].
  intros [->|[->| ->]]; reflexivity.
Qed.

Lemma parse_exp_int (e : Z) (rest : list ascii) :
  starts_with_digit rest = false ->
  parse_exp ("e"%char :: int_chars e ++ rest) = Some (e, rest).
Proof.
  intros Hrest. unfold parse_exp. simpl.
  rewrite (proj2 (int_chars_sign e rest)), take_digits_int by assumption.
  pose proof (to_uint_nonnil (Z.abs_N e)) as Hnn.
  rewrite <- (signed_abs e) at 2. rewrite <- (DecimalN.Unsigned.of_to (Z.abs_N e)) at 2.
  destruct (N.to_uint (Z.abs_N e)); [congruence|..]; reflexivity.
Qed.

(** A printed number is read back. *)
Lemma parse_number_chars (m e : Z) (rest : list ascii) :
  delimited rest ->
  parse_number (number_chars m e ++ rest) = POk (JsNumber m e) rest.
Proof.
  intros Hrest. pose proof (delimited_no_digit rest Hrest) as Hdigit.
  unfold parse_number, number_chars. destruct (Z.eqb_spec e 0) as [->|He].
  - rewrite (proj1 (int_chars_sign m rest)), take_digits_int by assumption.
    rewrite to_uint_valid, parse_frac_none, parse_exp_none; try assumption.
    + rewrite DecimalFacts.app_nil_r, DecimalN.Unsigned.of_to, signed_abs. reflexivity.
    + destruct rest as [|c rest]; [exact I|].
      destruct Hrest as [->|[->| ->]]; reflexivity.
  - rewrite <- List.app_assoc. simpl.
    rewrite (proj1 (int_chars_sign m _)), take_digits_int by reflexivity.
    rewrite to_uint_valid, parse_frac_none by reflexivity.
    rewrite parse_exp_int by assumption.
    rewrite DecimalFacts.app_nil_r, DecimalN.Unsigned.of_to, signed_abs.
    simpl. rewrite Z.sub_0_r. reflexivity.
Qed.

Lemma parse_chars_escape (c : ascii) (tail : list ascii) :
  parse_chars (escape_char c ++ tail) =
  match parse_chars tail with
  | Some (cs, r) => Some (c :: cs, r)
  | None => None
  end.
Proof.
  destruct c as [[] [] [] [] [] [] [] []]; reflexivity.
Qed.

(** A printed string literal is read back. *)
Lemma parse_chars_quote (cs rest : list ascii) :
  parse_chars (flat_map escape_char cs ++ dquote :: rest) = Some (cs, rest).
Proof.
  induction cs as [|c cs IH]; [reflexivity|].
  simpl. rewrite <- List.app_assoc, parse_chars_escape, IH. reflexivity.
Qed.

Lemma JsValue_nested_ind (P : JsValue -> Prop)
    (Hnull : P JsNull) (Hbool : forall b, P (JsBool b))
    (Hnum : forall m e, P (JsNumber m e)) (Hstr : forall s, P (JsString s))
    (Harr : forall items, Forall P items -> P (JsArray items))
    (Hobj : forall members, Forall (fun kv => P (snd kv)) members -> P (JsObject members)) :
  forall v, P v.
Proof.
  fix IH 1. intros [ | b | m e | s | items | members].
  - exact Hnull.
  - apply Hbool.
  - apply Hnum.
  - apply Hstr.
  - apply Harr. revert items. fix IHitems 1. intros [|x items].
    + constructor.
    + constructor; [apply IH | apply IHitems].
  - apply Hobj. revert members. fix IHmembers 1. intros [|[k x] members].
    + constructor.
    + constructor; [apply IH | apply IHmembers].
Qed.

Lemma digit_char_plain (c : ascii) :
  digit_of_char c <> None ->
  is_ws c = false /\ Ascii.eqb c "]" = false /\ Ascii.eqb c "n" = false /\
  Ascii.eqb c "t" = false /\ Ascii.eqb c "f" = false /\ Ascii.eqb c dquote = false /\
  Ascii.eqb c "[" = false /\ Ascii.eqb c "{" = false.
Proof.
  destruct c as [[] [] [] [] [] [] [] []]; intros H; try (exfalso; apply H; reflexivity);
    repeat split.
Qed.

Lemma int_chars_head (z : Z) (rest : list ascii) :
  exists c s, int_chars z ++ rest = c :: s /\ (c = "-"%char \/ digit_of_char c <> None).
Proof.
  unfold int_chars. destruct (z <? 0); simpl.
  - eexists _, _. split; [reflexivity|]. left. reflexivity.
  - destruct (chars_of_uint_head (N.to_uint (Z.abs_N z)) rest (to_uint_nonnil _))
      as (c & s & Heq & Hdigit).
    exists c, s. split; [exact Heq|]. right. simpl in Hdigit.
    destruct (digit_of_char c); [discriminate|discriminate Hdigit].
Qed.

Lemma number_chars_head (m e : Z) (rest : list ascii) :
  exists c s, number_chars m e ++ rest = c :: s /\ (c = "-"%char \/ digit_of_char c <> None).
Proof.
  unfold number_chars. destruct (e =? 0); [apply int_chars_head|].
  rewrite <- List.app_assoc. apply int_chars_head.
Qed.

(** A value that starts like a number is a number. *)
Lemma parse_value_number (fuel : nat) (c : ascii) (s : list ascii) :
  c = "-"%char \/ digit_of_char c <> None ->
  parse_value (S fuel) (c :: s) = parse_number (c :: s).
Proof.
  intros [->|H]; [reflexivity|].
  destruct (digit_char_plain c H) as (Hws & _ & Hn & Ht & Hf & Hq & Ha & Ho).
  cbn [parse_value skip_ws]. rewrite Hws, Hn, Ht, Hf, Hq, Ha, Ho. reflexivity.
Qed.

(** No printed value starts with white space or closes an array. *)
Lemma stringify_chars_head (v : JsValue) (rest : list ascii) :
  exists c s, stringify_chars v ++ rest = c :: s /\
              is_ws c = false /\ Ascii.eqb c "]" = false.
Proof.
  destruct v as [ | [] | m e | str | items | members]; simpl;
    try (eexists _, _; repeat split; reflexivity).
  destruct (number_chars_head m e rest) as (c & s & Heq & [->|H]).
  - eexists _, _. split; [exact Heq|]. split; reflexivity.
  - exists c, s. split; [exact Heq|].
    destruct (digit_char_plain c H) as (Hws & Hc & _). split; assumption.
Qed.

Lemma skip_ws_plain (c : ascii) (s : list ascii) :
  is_ws c = false -> skip_ws (c :: s) = c :: s.
Proof. intros H. simpl. rewrite H. reflexivity. Qed.

Lemma join_with_one {A : Type} (f : A -> list ascii) (x : A) : join_with f [x] = f x.
Proof. reflexivity. Qed.

Lemma join_with_more {A : Type} (f : A -> list ascii) (x y : A) (l : list A) :
  join_with f (x :: y :: l) = f x ++ ","%char :: join_with f (y :: l).
Proof. reflexivity. Qed.

Lemma parse_elements_join (items : list JsValue) :
  Forall reads_back items ->
  items <> [] ->
  forall rest fuel,
    (2 * length (join_with stringify_chars items) + 1 < fuel)%nat ->
    parse_elements fuel (join_with stringify_chars items ++ "]"%char :: rest) =
    POk items rest.
Proof.
  induction 1 as [|x items Hx Hitems IH]; [congruence|]. intros _ rest fuel Hfuel.
  destruct fuel as [|fuel]; [lia|].
  cbn [parse_elements]. destruct items as [|y items].
  - rewrite join_with_one in *.
    rewrite Hx; [reflexivity | right; left; reflexivity | lia].
  - rewrite join_with_more in *. rewrite <- List.app_assoc.
    rewrite length_app in Hfuel. cbn [length] in Hfuel.
    rewrite Hx; [| left; reflexivity | lia].
    change (("," :: join_with stringify_chars (y :: items)) ++ "]" :: rest)%char
      with ("," :: (join_with stringify_chars (y :: items) ++ "]" :: rest))%char.
    rewrite skip_ws_plain by reflexivity. cbv beta iota.
    change (Ascii.eqb "," ",") with true. cbv iota.
    rewrite IH; [reflexivity | discriminate | lia].
Qed.

Lemma quote_app (k : string) (tail : list ascii) :
  quote k ++ tail =
  dquote :: flat_map escape_char (String.list_ascii_of_string k) ++ dquote :: tail.
Proof. unfold quote. simpl. rewrite <- List.app_assoc. reflexivity. Qed.

(** How [parse_members] reads one printed member and what closes it. *)
Lemma parse_members_step (fuel : nat) (k : string) (x : JsValue) (tail : list ascii) :
  reads_back x ->
  delimited tail ->
  (2 * length (stringify_chars x) < fuel)%nat ->
  parse_members (S fuel) (quote k ++ ":"%char :: stringify_chars x ++ tail) =
  match skip_ws tail with
  | c :: r =>
      if Ascii.eqb c "," then wrap (cons (k, x)) (parse_members fuel r)
      else if Ascii.eqb c "}" then POk [(k, x)] r
      else PError
  | [] => PError
  end.
Proof.
  intros Hx Htail Hfuel. rewrite quote_app. cbn [parse_members].
  rewrite skip_ws_plain by reflexivity. cbv beta iota.
  change (Ascii.eqb dquote dquote) with true. cbv iota.
  rewrite parse_chars_quote. rewrite skip_ws_plain by reflexivity. cbv beta iota.
  change (Ascii.eqb ":" ":") with true. cbv iota.
  rewrite Hx by assumption. rewrite String.string_of_list_ascii_of_string. reflexivity.
Qed.

Lemma parse_members_join (members : list (string * JsValue)) :
  Forall (fun kv => reads_back (snd kv)) members ->
  members <> [] ->
  forall rest fuel,
    (2 * length (join_with (fun kv => quote (fst kv) ++ ":"%char :: stringify_chars (snd kv))
                   members) + 1 < fuel)%nat ->
    parse_members fuel
      (join_with (fun kv => quote (fst kv) ++ ":"%char :: stringify_chars (snd kv)) members ++
       "}"%char :: rest) =
    POk members rest.
Proof.
  induction 1 as [|[k x] members Hx Hmembers IH]; [congruence|]. intros _ rest fuel Hfuel.
  destruct fuel as [|fuel]; [lia|].
  destruct members as [|kv members].
  - rewrite join_with_one in *. cbn [fst snd] in *.
    rewrite length_app in Hfuel. cbn [length] in Hfuel.
    rewrite <- List.app_assoc.
    change ((":" :: stringify_chars x) ++ "}" :: rest)%char
      with (":" :: stringify_chars x ++ "}" :: rest)%char.
    rewrite parse_members_step; [reflexivity | exact Hx | right; right; reflexivity | lia].
  - rewrite join_with_more in *. cbn [fst snd] in *.
    repeat first [rewrite length_app in Hfuel | progress cbn [length] in Hfuel].
    rewrite <- !List.app_assoc.
    change ((":" :: stringify_chars x) ++ ?t)%char with (":" :: stringify_chars x ++ t)%char.
    cbn [app].
    rewrite parse_members_step; [| exact Hx | left; reflexivity | lia].
    rewrite <- List.app_comm_cons.
    rewrite skip_ws_plain by reflexivity. cbv beta iota.
    change (Ascii.eqb "," ",") with true. cbv iota.
    rewrite IH; [reflexivity | discriminate | lia].
Qed.

(** Every value is read back from its printed form. *)
Lemma parse_value_stringify (v : JsValue) : reads_back v.
Proof.
  induction v as [ | b | m e | s | items IH | members IH] using JsValue_nested_ind;
    intros rest fuel Hrest Hfuel; (destruct fuel as [|fuel]; [lia|]).
  - reflexivity.
  - destruct b; reflexivity.
  - cbn [stringify_chars].
    destruct (number_chars_head m e rest) as (c & s & Heq & Hc).
    rewrite Heq, (parse_value_number fuel c s Hc), <- Heq.
    apply parse_number_chars. exact Hrest.
  - cbn [stringify_chars]. rewrite quote_app. cbn [parse_value].
    rewrite skip_ws_plain by reflexivity. cbv beta iota.
    change (Ascii.eqb dquote "n") with false. change (Ascii.eqb dquote "t") with false.
    change (Ascii.eqb dquote "f") with false. change (Ascii.eqb dquote dquote) with true.
    cbv iota. rewrite parse_chars_quote, String.string_of_list_ascii_of_string.
    reflexivity.
  - cbn [stringify_chars] in *. cbn [length] in Hfuel. rewrite length_app in Hfuel.
    cbn [length] in Hfuel.
    change (("[" :: join_with stringify_chars items ++ ["]"]) ++ rest)%char
      with ("[" :: (join_with stringify_chars items ++ ["]"]) ++ rest)%char.
    rewrite <- List.app_assoc. cbn [app parse_value].
    rewrite skip_ws_plain by reflexivity. cbv beta iota.
    change (Ascii.eqb "[" "n") with false. change (Ascii.eqb "[" "t") with false.
    change (Ascii.eqb "[" "f") with false. change (Ascii.eqb "[" dquote) with false.
    change (Ascii.eqb "[" "[") with true. cbv iota.
    destruct items as [|x items]; [reflexivity|].
    assert (exists c s, join_with stringify_chars (x :: items) ++ "]"%char :: rest = c :: s /\
                        is_ws c = false /\ Ascii.eqb c "]" = false)
      as (c & s & Heq & Hws & Hc).
    { destruct items as [|y items].
      - rewrite join_with_one. apply stringify_chars_head.
      - rewrite join_with_more, <- List.app_assoc. apply stringify_chars_head. }
    rewrite Heq at 1. rewrite skip_ws_plain by assumption. cbv beta iota.
    rewrite Hc. change (["]"%char] ++ rest) with ("]"%char :: rest).
    rewrite parse_elements_join; [reflexivity | exact IH | discriminate | lia].
  - cbn [stringify_chars] in *. cbn [length] in Hfuel. rewrite length_app in Hfuel.
    cbn [length] in Hfuel.
    match goal with
    | |- context [join_with ?f members] => set (print := f) in *
    end.
    change (("{" :: join_with print members ++ ["}"]) ++ rest)%char
      with ("{" :: (join_with print members ++ ["}"]) ++ rest)%char.
    rewrite <- List.app_assoc. cbn [app parse_value].
    rewrite skip_ws_plain by reflexivity. cbv beta iota.
    change (Ascii.eqb "{" "n") with false. change (Ascii.eqb "{" "t") with false.
    change (Ascii.eqb "{" "f") with false. change (Ascii.eqb "{" dquote) with false.
    change (Ascii.eqb "{" "[") with false. change (Ascii.eqb "{" "{") with true. cbv iota.
    destruct members as [|[k x] members]; [reflexivity|].
    assert (exists s, join_with print ((k, x) :: members) ++ "}"%char :: rest =
                      dquote :: s) as (s & Heq).
    { destruct members as [|kv members].
      - rewrite join_with_one. unfold print. cbn [fst]. rewrite <- List.app_assoc, quote_app.
        eexists. reflexivity.
      - rewrite join_with_more. unfold print at 1. cbn [fst].
        rewrite <- !List.app_assoc, quote_app. eexists. reflexivity. }
    rewrite Heq at 1. rewrite skip_ws_plain by reflexivity. cbv beta iota.
    change (Ascii.eqb dquote "}") with false. cbv iota.
    unfold print. change (["}"%char] ++ rest) with ("}"%char :: rest).
    rewrite parse_members_join; [reflexivity | exact IH | discriminate |].
    fold print. lia.
Qed.

(** [JSON.parse(JSON.stringify(v))] is [v]. *)
Lemma parse_stringify (v : JsValue) : parse (stringify v) = Return v.
Proof.
  unfold parse, stringify. rewrite String.list_ascii_of_string_of_list_ascii.
  rewrite <- (List.app_nil_r (stringify_chars v)) at 2.
  rewrite parse_value_stringify; [reflexivity | exact I |].
  unfold fuel_for. lia.
Qed.

Lemma stringify_truthy (v : JsValue) : truthy (stringify v) = true.
Proof.
  unfold stringify.
  destruct (stringify_chars_head v []) as (c & s & Heq & _).
  rewrite List.app_nil_r in Heq. rewrite Heq. reflexivity.
Qed.
End JSONFacts.

(** ** The JSON built-ins: the parser's fuel is enough *)

Module JSONFuel.
Import JSON.

Lemma skip_ws_length (s : list ascii) : (length (skip_ws s) <= length s)%nat.
Proof.
  induction s as [|c s IH]; simpl; [lia|]. destruct (is_ws c); simpl; lia.
Qed.

Lemma skip_ws_cons (s : list ascii) (c : ascii) (r : list ascii) :
  skip_ws s = c :: r -> (length r < length s)%nat.
Proof.
  intros H. pose proof (skip_ws_length s) as Hlen. rewrite H in Hlen. simpl in Hlen. lia.
Qed.

Lemma take_digits_length (s : list ascii) (u : uint) (r : list ascii) :
  take_digits s = (u, r) ->
  (length r <= length s)%nat /\ (u <> Nil -> (length r < length s)%nat).
Proof.
  revert u r. induction s as [|c s IH]; simpl; intros u r H.
  - injection H as <- <-. split; [simpl; lia|congruence].
  - destruct (digit_of_char c) as [d|].
    + destruct (take_digits s) as [u' r'] eqn:E. injection H as <- <-.
      destruct (IH u' r' eq_refl) as [Hle _]. split; intros; lia.
    + injection H as <- <-. split; [simpl; lia|congruence].
Qed.

Lemma parse_frac_length (s : list ascii) (u : uint) (r : list ascii) :
  parse_frac s = Some (u, r) -> (length r <= length s)%nat.
Proof.
  unfold parse_frac. destruct s as [|c s]; [intros [= <- <-]; lia|].
  destruct (Ascii.eqb c ".").
  - destruct (take_digits s) as [u' r'] eqn:E.
    destruct (take_digits_length s u' r' E) as [Hle _].
    destruct u'; intros [= <- <-]; simpl; lia.
  - intros [= <- <-]. lia.
Qed.

Lemma parse_exp_length (s : list ascii) (e : Z) (r : list ascii) :
  parse_exp s = Some (e, r) -> (length r <= length s)%nat.
Proof.
  unfold parse_exp. destruct s as [|c s]; [intros [= <- <-]; lia|].
  destruct (Ascii.eqb c "e" || Ascii.eqb c "E").
  - destruct (parse_sign s) as [neg r1] eqn:Hsign.
    assert (length r1 <= length s)%nat as Hr1.
    { unfold parse_sign in Hsign. destruct s as [|c' s']; [injection Hsign as <- <-; lia|].
      destruct (Ascii.eqb c' "-"); [injection Hsign as <- <-; simpl; lia|].
      destruct (Ascii.eqb c' "+"); injection Hsign as <- <-; simpl; lia. }
    destruct (take_digits r1) as [u' r'] eqn:E.
    destruct (take_digits_length r1 u' r' E) as [Hle _].
    destruct u'; intros [= <- <-]; simpl; lia.
  - intros [= <- <-]. lia.
Qed.

Lemma parse_number_length (s : list ascii) (v : JsValue) (r : list ascii) :
  parse_number s = POk v r -> (length r < length s)%nat.
Proof.
  unfold parse_number.
  destruct (parse_minus s) as [neg s1] eqn:Hminus.
  assert (length s1 <= length s)%nat as Hs1.
  { unfold parse_minus in Hminus. destruct s as [|c s]; [injection Hminus as <- <-; lia|].
    destruct (Ascii.eqb c "-"); injection Hminus as <- <-; simpl; lia. }
  destruct (take_digits s1) as [int s2] eqn:Hint.
  destruct (take_digits_length s1 int s2 Hint) as [_ Hlt].
  destruct (valid_int int) eqn:Hvalid; [|discriminate].
  assert (int <> Nil) as Hnn by (intros ->; discriminate Hvalid).
  specialize (Hlt Hnn).
  destruct (parse_frac s2) as [[frac s3]|] eqn:Hfrac; [|discriminate].
  apply parse_frac_length in Hfrac.
  destruct (parse_exp s3) as [[e s4]|] eqn:Hexp; [|discriminate].
  apply parse_exp_length in Hexp.
  intros [= <- <-]. lia.
Qed.

Lemma parse_number_fuel (s : list ascii) : parse_number s <> PFuel.
Proof.
  unfold parse_number.
  destruct (parse_minus s) as [neg s1]. destruct (take_digits s1) as [int s2].
  destruct (valid_int int); [|discriminate].
  destruct (parse_frac s2) as [[frac s3]|]; [|discriminate].
  destruct (parse_exp s3) as [[e s4]|]; discriminate.
Qed.

Lemma parse_chars_length (s cs r : list ascii) :
  parse_chars s = Some (cs, r) -> (length r < length s)%nat.
Proof.
  remember (length s) as n eqn:Hn. revert s cs r Hn.
  induction n as [n IH] using lt_wf_ind. intros s cs r -> H.
  destruct s as [|c s]; [discriminate|]. cbn [parse_chars] in H.
  destruct (Ascii.eqb c dquote); [injection H as <- <-; simpl; lia|].
  destruct (Ascii.eqb c "\").
  - destruct s as [|e r1]; [discriminate|].
    destruct (Ascii.eqb e "u").
    + destruct r1 as [|h1 [|h2 [|h3 [|h4 r2]]]]; try discriminate.
      destruct (hex_of_char h1), (hex_of_char h2), (hex_of_char h3), (hex_of_char h4);
        try discriminate.
      destruct (parse_chars r2) as [[cs' r3]|] eqn:E; [|discriminate].
      injection H as <- <-.
      pose proof (fun pf => IH (length r2) pf r2 _ _ eq_refl E) as Hlen.
      simpl in *. specialize (Hlen ltac:(lia)). lia.
    + destruct (unescape e); [|discriminate].
      destruct (parse_chars r1) as [[cs' r2]|] eqn:E; [|discriminate].
      injection H as <- <-.
      pose proof (fun pf => IH (length r1) pf r1 _ _ eq_refl E) as Hlen.
      simpl in *. specialize (Hlen ltac:(lia)). lia.
  - destruct (N_of_ascii c <? 32)%N; [discriminate|].
    destruct (parse_chars s) as [[cs' r1]|] eqn:E; [|discriminate].
    injection H as <- <-.
    pose proof (fun pf => IH (length s) pf s _ _ eq_refl E) as Hlen.
    simpl in *. specialize (Hlen ltac:(lia)). lia.
Qed.

Lemma strip_prefix_length (kw s r : list ascii) :
  strip_prefix kw s = Some r -> (length r + length kw = length s)%nat.
Proof.
  revert s. induction kw as [|k kw IH]; intros s; simpl.
  - intros [= <-]. lia.
  - destruct s as [|c s]; [discriminate|].
    destruct (Ascii.eqb k c); [|discriminate].
    intros H. apply IH in H. simpl. lia.
Qed.

Lemma parse_keyword_length (kw : string) (v v' : JsValue) (s r : list ascii) :
  kw <> EmptyString ->
  parse_keyword kw v s = POk v' r -> (length r < length s)%nat.
Proof.
  unfold parse_keyword. intros Hkw.
  destruct (strip_prefix (String.list_ascii_of_string kw) s) as [r'|] eqn:E; [|discriminate].
  intros [= <- <-]. apply strip_prefix_length in E.
  destruct kw; [congruence|]. simpl in E. lia.
Qed.

Lemma parse_keyword_fuel (kw : string) (v : JsValue) (s : list ascii) :
  parse_keyword kw v s <> PFuel.
Proof.
  unfold parse_keyword. destruct (strip_prefix _ s); discriminate.
Qed.

Lemma wrap_fuel {A B : Type} (f : A -> B) (r : presult A) :
  wrap f r = PFuel <-> r = PFuel.
Proof. destruct r; simpl; split; congruence. Qed.

Lemma wrap_ok {A B : Type} (f : A -> B) (r : presult A) (b : B) (rest : list ascii) :
  wrap f r = POk b rest -> exists a, r = POk a rest /\ b = f a.
Proof. destruct r; simpl; [|discriminate..]. intros [= <- <-]. eauto. Qed.

(** Every parser consumes input when it succeeds, and does not run out of
    fuel when it is given more than twice the length of the input. *)
Lemma parse_fuel_enough (fuel : nat) :
  (forall s,
     (forall v r, parse_value fuel s = POk v r -> (length r < length s)%nat) /\
     ((2 * length s < fuel)%nat -> parse_value fuel s <> PFuel)) /\
  (forall s,
     (forall vs r, parse_elements fuel s = POk vs r -> (length r < length s)%nat) /\
     ((2 * length s + 1 < fuel)%nat -> parse_elements fuel s <> PFuel)) /\
  (forall s,
     (forall ms r, parse_members fuel s = POk ms r -> (length r < length s)%nat) /\
     ((2 * length s + 1 < fuel)%nat -> parse_members fuel s <> PFuel)).
Proof.
  induction fuel as [|fuel (IHv & IHe & IHm)].
  { repeat split; try discriminate; simpl; lia. }
  split; [|split]; intros s.
  - cbn [parse_value].
    destruct (skip_ws s) as [|c r] eqn:Hs; [split; discriminate|].
    apply skip_ws_cons in Hs.
    destruct (Ascii.eqb c "n").
    { split; [|intros _; apply parse_keyword_fuel].
      intros v r0 H. apply parse_keyword_length in H; [simpl in *; lia|discriminate]. }
    destruct (Ascii.eqb c "t").
    { split; [|intros _; apply parse_keyword_fuel].
      intros v r0 H. apply parse_keyword_length in H; [simpl in *; lia|discriminate]. }
    destruct (Ascii.eqb c "f").
    { split; [|intros _; apply parse_keyword_fuel].
      intros v r0 H. apply parse_keyword_length in H; [simpl in *; lia|discriminate]. }
    destruct (Ascii.eqb c dquote).
    { destruct (parse_chars r) as [[cs r']|] eqn:E; [apply parse_chars_length in E|];
        split; try discriminate.
      intros v r0 [= <- <-]. lia. }
    destruct (Ascii.eqb c "[").
    { destruct (skip_ws r) as [|c' r'] eqn:Hr; [split; discriminate|].
      apply skip_ws_cons in Hr.
      destruct (Ascii.eqb c' "]"); [split; [intros v r0 [= <- <-]; lia | discriminate]|].
      split.
      - intros v r0 H. apply wrap_ok in H as (a & H & _). apply IHe in H. lia.
      - intros Hf. rewrite wrap_fuel. apply IHe. lia. }
    destruct (Ascii.eqb c "{").
    { destruct (skip_ws r) as [|c' r'] eqn:Hr; [split; discriminate|].
      apply skip_ws_cons in Hr.
      destruct (Ascii.eqb c' "}"); [split; [intros v r0 [= <- <-]; lia | discriminate]|].
      split.
      - intros v r0 H. apply wrap_ok in H as (a & H & _). apply IHm in H. lia.
      - intros Hf. rewrite wrap_fuel. apply IHm. lia. }
    split; [|intros _; apply parse_number_fuel].
    intros v r0 H. apply parse_number_length in H. simpl in *. lia.
  - cbn [parse_elements].
    destruct (parse_value fuel s) as [v r| |] eqn:Hv.
    + pose proof (proj1 (IHv s) v r Hv) as Hlen.
      destruct (skip_ws r) as [|c r'] eqn:Hr; [split; discriminate|].
      apply skip_ws_cons in Hr.
      destruct (Ascii.eqb c ",").
      { split.
        - intros vs r0 H. apply wrap_ok in H as (a & H & _). apply IHe in H. lia.
        - intros Hf. rewrite wrap_fuel. apply IHe. lia. }
      destruct (Ascii.eqb c "]"); split; try discriminate.
      intros vs r0 [= <- <-]. lia.
    + split; discriminate.
    + split; [discriminate|]. intros Hf _. apply (proj2 (IHv s)); [lia | exact Hv].
  - cbn [parse_members].
    destruct (skip_ws s) as [|c r] eqn:Hs; [split; discriminate|].
    apply skip_ws_cons in Hs.
    destruct (Ascii.eqb c dquote); [|split; discriminate].
    destruct (parse_chars r) as [[k r1]|] eqn:Hk; [|split; discriminate].
    apply parse_chars_length in Hk.
    destruct (skip_ws r1) as [|c1 r2] eqn:Hr1; [split; discriminate|].
    apply skip_ws_cons in Hr1.
    destruct (Ascii.eqb c1 ":"); [|split; discriminate].
    destruct (parse_value fuel r2) as [v r3| |] eqn:Hv.
    + pose proof (proj1 (IHv r2) v r3 Hv) as Hlen.
      destruct (skip_ws r3) as [|c3 r4] eqn:Hr3; [split; discriminate|].
      apply skip_ws_cons in Hr3.
      destruct (Ascii.eqb c3 ",").
      { split.
        - intros ms r0 H. apply wrap_ok in H as (a & H & _). apply IHm in H. lia.
        - intros Hf. rewrite wrap_fuel. apply IHm. lia. }
      destruct (Ascii.eqb c3 "}"); split; try discriminate.
      intros ms r0 [= <- <-]. lia.
    + split; discriminate.
    + split; [discriminate|]. intros Hf _. apply (proj2 (IHv r2)); [lia | exact Hv].
Qed.

(** [JSON.parse] never runs out of fuel. *)
Lemma parse_value_fuel (s : list ascii) : parse_value (fuel_for s) s <> PFuel.
Proof. apply parse_fuel_enough. unfold fuel_for. lia. Qed.
End JSONFuel.

(** ** The page node: the margins attribute *)

Section PageMargins.

Variable DEFAULT_MARGIN_CONFIG : JsValue.

Local Abbreviation parseMargins := (pageMargins_parseHTML DEFAULT_MARGIN_CONFIG).

Lemma truthy_nonempty (s : string) : truthy s = true <-> s <> EmptyString.
Proof. destruct s; simpl; split; congruence. Qed.

(** C2, as the attribute has it. A missing or empty serialized value is
    parsed to the default margin configuration, without an exception. Any
    other value is handed to [JSON.parse] and its outcome is the outcome of
    the parse: text that is not JSON raises the [SyntaxError] of
    [JSON.parse]. What [renderHTML] prints for a value is parsed back to that
    value. *)
Theorem pageMargins_parse_of_render (element : HTMLElement) :
  (getAttribute element PAGE_NODE_ATTR_KEYS.pageMargins = None \/
   getAttribute element PAGE_NODE_ATTR_KEYS.pageMargins = Some EmptyString ->
   parseMargins element = Return DEFAULT_MARGIN_CONFIG) /\
  (forall margins,
     getAttribute element PAGE_NODE_ATTR_KEYS.pageMargins = Some margins ->
     margins <> EmptyString ->
     parseMargins element = JSON.parse margins) /\
  (forall (attributes : gmap string JsValue) (x : JsValue),
     attributes !! "pageMargins"%string = Some x ->
     getAttribute element PAGE_NODE_ATTR_KEYS.pageMargins =
       pageMargins_renderHTML attributes !! PAGE_NODE_ATTR_KEYS.pageMargins ->
     parseMargins element = Return x).
Proof.
  unfold pageMargins_parseHTML. split; [|split].
  - intros [-> | ->]; reflexivity.
  - intros margins -> Hne. apply truthy_nonempty in Hne. rewrite Hne. reflexivity.
  - intros attributes x Hx Hattr. unfold pageMargins_renderHTML in Hattr.
    rewrite Hx, lookup_singleton_eq in Hattr. rewrite Hattr.
    rewrite JSONFacts.stringify_truthy. apply JSONFacts.parse_stringify.
Qed.

End PageMargins.

Lemma pageMargins_parse_of_render_witness :
  let empty := Element "div" {[ "pageMargins"%string := EmptyString ]} None in
  let rendered :=
    Element "div"
      (pageMargins_renderHTML {[ "pageMargins"%string := sampleMargins ]}) None in
  pageMargins_parseHTML JsNull empty = Return JsNull /\
  pageMargins_parseHTML JsNull rendered = Return sampleMargins.
Proof.
  intros empty rendered. split.
  - apply (proj1 (pageMargins_parse_of_render JsNull empty)). right. reflexivity.
  - apply (proj2 (proj2 (pageMargins_parse_of_render JsNull rendered))
             {[ "pageMargins"%string := sampleMargins ]} sampleMargins); reflexivity.
Defined.

(** A serialized value that is not JSON is not replaced by the default:
    parsing it raises. *)
Lemma pageMargins_parseHTML_malformed_throws :
  let element := Element "div" {[ "pageMargins"%string := "{top: 25.4"%string ]} None in
  pageMargins_parseHTML sampleMargins element = Throw SyntaxError /\
  pageMargins_parseHTML sampleMargins element <> Return sampleMargins.
Proof.
  intros element.
  assert (pageMargins_parseHTML sampleMargins element = Throw SyntaxError) as H
    by (vm_compute; reflexivity).
  split; [exact H|]. rewrite H. discriminate.
Qed.

Example pageMargins_parseHTML_garbled :
  pageMargins_parseHTML sampleMargins
    (Element "div" {[ "pageMargins"%string := "garbled"%string ]} None) = Throw SyntaxError.
Proof. vm_compute. reflexivity. Qed.

(** * Further properties *)

(** ** The paper geometry table, further *)

Section PaperGeometry.

Variable number : Type.
Variable pixels : Type.
Variable paperDimensions : gmap string (PaperDimensions number).
Variable DEFAULT_PAPER_SIZE : PaperSize.
Variable mmToPixels : option number -> pixels.

Local Abbreviation validSize := (isValidPaperSize number paperDimensions).
Local Abbreviation dimensionsOf :=
  (getPaperDimensions number paperDimensions DEFAULT_PAPER_SIZE).
Local Abbreviation pixelsOf :=
  (calculatePagePixelDimensions number pixels paperDimensions DEFAULT_PAPER_SIZE mmToPixels).

Lemma js_index_cases (key : string) :
  (exists d, paperDimensions !! key = Some d /\ js_index paperDimensions key = Own d /\
             js_in key paperDimensions = true) \/
  (paperDimensions !! key = None /\ inherited key = true /\
   js_index paperDimensions key = Inherited key /\ js_in key paperDimensions = true) \/
  (paperDimensions !! key = None /\ inherited key = false /\
   js_index paperDimensions key = Undefined /\ js_in key paperDimensions = false).
Proof.
  unfold js_index, js_in. destruct (paperDimensions !! key) as [d|].
  - left. eauto.
  - right. destruct (inherited key); [left | right]; auto.
Qed.

(** X1. [getPaperDimensions] answers [undefined] exactly when the validity
    check refuses both the identifier and the default identifier. Dimensions
    it answers are the table entry of the identifier, or of the default when
    the check refuses the identifier; anything else it answers is a property
    the table inherits, under the name of the identifier or of the default. *)
Theorem getPaperDimensions_undefined_iff (paperSize : PaperSize) :
  (dimensionsOf paperSize = Undefined <->
   validSize paperSize = false /\ validSize DEFAULT_PAPER_SIZE = false) /\
  (forall d, dimensionsOf paperSize = Own d ->
             paperDimensions !! paperSize = Some d \/
             (validSize paperSize = false /\
              paperDimensions !! DEFAULT_PAPER_SIZE = Some d)) /\
  (forall name, dimensionsOf paperSize = Inherited name ->
                inherited name = true /\
                (name = paperSize \/
                 (validSize paperSize = false /\ name = DEFAULT_PAPER_SIZE))).
Proof.
  unfold getPaperDimensions, isValidPaperSize, PaperSize in *.
  destruct (js_index_cases paperSize)
    as [(d & Hown & Hread & Hin)|[(Hnone & Hinh & Hread & Hin)|(Hnone & Hinh & Hread & Hin)]];
    rewrite Hin; cbn [negb]; try rewrite Hread.
  - split; [split; [discriminate | intros [H _]; discriminate]|]. split.
    + intros d' [= <-]. left. exact Hown.
    + intros name H. discriminate H.
  - split; [split; [discriminate | intros [H _]; discriminate]|]. split.
    + intros d H. discriminate H.
    + intros name [= <-]. split; [exact Hinh | left; reflexivity].
  - destruct (js_index_cases DEFAULT_PAPER_SIZE)
      as [(d & Hown' & Hread' & Hin')|[(Hnone' & Hinh' & Hread' & Hin')|
                                       (Hnone' & Hinh' & Hread' & Hin')]];
      rewrite Hread', Hin'.
    + split; [split; [discriminate | intros [_ H]; discriminate]|]. split.
      * intros d' [= <-]. right. split; [reflexivity | exact Hown'].
      * intros name H. discriminate H.
    + split; [split; [discriminate | intros [_ H]; discriminate]|]. split.
      * intros d H. discriminate H.
      * intros name [= <-]. split; [exact Hinh' | right; split; reflexivity].
    + split; [split; [intros _; split; reflexivity | reflexivity]|]. split.
      * intros d H. discriminate H.
      * intros name H. discriminate H.
Qed.

(** X2. An identifier the validity check refuses is treated as the default
    identifier throughout: same dimensions, same pixel dimensions, whatever
    the default itself reads. *)
Theorem invalid_paper_size_is_default (paperSize : PaperSize) :
  validSize paperSize = false ->
  dimensionsOf paperSize = dimensionsOf DEFAULT_PAPER_SIZE /\
  pixelsOf paperSize = pixelsOf DEFAULT_PAPER_SIZE.
Proof.
  intros Hinvalid.
  assert (dimensionsOf paperSize = dimensionsOf DEFAULT_PAPER_SIZE) as H.
  { unfold getPaperDimensions. rewrite Hinvalid. simpl.
    destruct (validSize DEFAULT_PAPER_SIZE); reflexivity. }
  split; [exact H|]. unfold calculatePagePixelDimensions. rewrite H. reflexivity.
Qed.

(** X3. The pixel dimensions of a page are the converted height and width of
    the paper dimensions, each from its own component. When what is read from
    the table is an inherited property, both are the conversion of
    [undefined]. The computation raises exactly when the validity check
    refuses both the identifier and the default; with the default in the
    table and an identifier that is no inherited name it gives converted
    dimensions. *)
Theorem calculatePagePixelDimensions_spec (paperSize : PaperSize) :
  (forall d, dimensionsOf paperSize = Own d ->
             pixelsOf paperSize =
             Return {| pageHeight := mmToPixels (Some (height d));
                       pageWidth := mmToPixels (Some (width d)) |}) /\
  (forall name, dimensionsOf paperSize = Inherited name ->
                pixelsOf paperSize =
                Return {| pageHeight := mmToPixels None; pageWidth := mmToPixels None |}) /\
  ((exists e, pixelsOf paperSize = Throw e) <->
   validSize paperSize = false /\ validSize DEFAULT_PAPER_SIZE = false) /\
  (is_Some (paperDimensions !! DEFAULT_PAPER_SIZE) -> inherited paperSize = false ->
   exists d, pixelsOf paperSize =
             Return {| pageHeight := mmToPixels (Some (height d));
                       pageWidth := mmToPixels (Some (width d)) |}).
Proof.
  unfold calculatePagePixelDimensions, getPaperDimensions, isValidPaperSize, PaperSize in *.
  destruct (js_index_cases paperSize)
    as [(d & Hown & Hread & Hin)|[(Hnone & Hinh & Hread & Hin)|(Hnone & Hinh & Hread & Hin)]];
    rewrite Hin; cbn [negb]; try rewrite Hread.
  - split; [intros d' [= <-]; reflexivity|]. split; [intros name H; discriminate H|].
    split; [split; [intros [e H]; discriminate H | intros [H _]; discriminate H]|].
    intros _ _. eauto.
  - split; [intros d H; discriminate H|]. split; [intros name _; reflexivity|].
    split; [split; [intros [e H]; discriminate H | intros [H _]; discriminate H]|].
    intros _ H. congruence.
  - destruct (js_index_cases DEFAULT_PAPER_SIZE)
      as [(d & Hown' & Hread' & Hin')|[(Hnone' & Hinh' & Hread' & Hin')|
                                       (Hnone' & Hinh' & Hread' & Hin')]];
      rewrite Hread', Hin'.
    + split; [intros d' [= <-]; reflexivity|]. split; [intros name H; discriminate H|].
      split; [split; [intros [e H]; discriminate H | intros [_ H]; discriminate H]|].
      intros _ _. eauto.
    + split; [intros d H; discriminate H|]. split; [intros name _; reflexivity|].
      split; [split; [intros [e H]; discriminate H | intros [_ H]; discriminate H]|].
      intros [d H] _. congruence.
    + split; [intros d H; discriminate H|]. split; [intros name H; discriminate H|].
      split; [split; [intros _; split; reflexivity | intros _; eauto]|].
      intros [d H] _. congruence.
Qed.

End PaperGeometry.

Lemma invalid_paper_size_is_default_witness :
  isValidPaperSize Z sampleDimensions "Tabloid" = false /\
  calculatePagePixelDimensions Z (option Z) sampleDimensions "A4" samplePixels "Tabloid" =
  calculatePagePixelDimensions Z (option Z) sampleDimensions "A4" samplePixels "A4".
Proof.
  split; [reflexivity|].
  exact (proj2 (invalid_paper_size_is_default Z (option Z) sampleDimensions "A4" samplePixels
                  "Tabloid" eq_refl)).
Defined.

Lemma calculatePagePixelDimensions_spec_witness :
  is_Some (sampleDimensions !! "A4"%string) /\
  inherited "Tabloid" = false /\
  exists d, calculatePagePixelDimensions Z (option Z) sampleDimensions "A4" samplePixels
              "Tabloid" =
            Return {| pageHeight := samplePixels (Some (height d));
                      pageWidth := samplePixels (Some (width d)) |}.
Proof.
  assert (is_Some (sampleDimensions !! "A4"%string)) as H by (eexists; reflexivity).
  split; [exact H|]. split; [reflexivity|].
  exact (proj2 (proj2 (proj2 (calculatePagePixelDimensions_spec Z (option Z) sampleDimensions
                                "A4" samplePixels "Tabloid"))) H eq_refl).
Defined.

Example calculatePagePixelDimensions_A5 :
  calculatePagePixelDimensions Z (option Z) sampleDimensions "A4" samplePixels "A5" =
  Return {| pageHeight := Some 806; pageWidth := Some 568 |}.
Proof. reflexivity. Qed.

Example calculatePagePixelDimensions_no_default :
  calculatePagePixelDimensions Z (option Z) sampleDimensions "Letter" samplePixels "Tabloid" =
  Throw TypeError.
Proof. reflexivity. Qed.

Example calculatePagePixelDimensions_inherited :
  calculatePagePixelDimensions Z (option Z) sampleDimensions "A4" samplePixels "valueOf" =
  Return {| pageHeight := None; pageWidth := None |}.
Proof. reflexivity. Qed.

(** ** The page attribute resolver, further *)

Lemma pageNodesIn_lookup_in_range (st : EditorState) (pageNum : Z) (node : PMNode) :
  0 <= pageNum ->
  pageNodesIn (doc st) !! Z.to_nat pageNum = Some node ->
  doesDocHavePageNodes st = true /\
  isPageNumInRange (doc st) pageNum = true /\
  getPageNodeByPageNum (doc st) pageNum = Some node.
Proof.
  intros Hpos Hnode. pose proof (lookup_lt_Some _ _ _ Hnode) as Hlt.
  split; [|split].
  - apply numPages_pos. unfold numPages. lia.
  - apply isPageNumInRange_spec. unfold numPages. lia.
  - unfold getPageNodeByPageNum. destruct (Z.ltb_spec pageNum 0); [lia|exact Hnode].
Qed.

Lemma isPageNumInRange_lookup (d : PMNode) (pageNum : Z) :
  isPageNumInRange d pageNum = true ->
  0 <= pageNum /\ exists node, pageNodesIn d !! Z.to_nat pageNum = Some node.
Proof.
  intros H. apply isPageNumInRange_spec in H. split; [lia|].
  apply lookup_lt_is_Some. unfold numPages in H. lia.
Qed.

Section ResolverValue.

Context {T : Type}.
Variable getDefault : unit -> T.
Variable getNodeAttribute : PMNode -> Nullable T.

(** The resolution for a page number that addresses a page. *)
Lemma getPageAttribute_at_page (st : EditorState) (pageNum : Z) (node : PMNode)
    (fuel : nat) :
  0 <= pageNum ->
  pageNodesIn (doc st) !! Z.to_nat pageNum = Some node ->
  getPageAttribute (S fuel) st pageNum getDefault getNodeAttribute =
  Some (nullish_coalesce (getNodeAttribute node) (getDefault tt),
        lookup_trace getNodeAttribute pageNum node).
Proof.
  intros Hpos Hnode.
  destruct (pageNodesIn_lookup_in_range st pageNum node Hpos Hnode) as (Hpages & Hrange & Hget).
  cbn [getPageAttribute]. unfold bind, call, ret, lookup_trace.
  rewrite Hpages, Hrange. cbn. rewrite Hget.
  destruct (getNodeAttribute node); reflexivity.
Qed.

(** X4. For a page number that addresses a page, the resolver answers the
    attribute of that page node, or the default when the attribute is
    nullish; it logs nothing, and it calls the default provider only when
    the attribute is nullish. *)
Theorem getPageAttribute_reads_page (st : EditorState) (pageNum : Z) (node : PMNode)
    (fuel : nat) :
  0 <= pageNum ->
  pageNodesIn (doc st) !! Z.to_nat pageNum = Some node ->
  exists t,
    getPageAttribute (S fuel) st pageNum getDefault getNodeAttribute =
      Some (nullish_coalesce (getNodeAttribute node) (getDefault tt), t) /\
    count is_diagnostic t = 0%nat /\
    count is_node_lookup t = 1%nat /\
    (count is_default_call t = 0%nat <-> is_Some (getNodeAttribute node)).
Proof.
  intros Hpos Hnode. exists (lookup_trace getNodeAttribute pageNum node).
  split; [apply getPageAttribute_at_page; assumption|].
  unfold lookup_trace. destruct (getNodeAttribute node) as [v|]; simpl.
  - repeat split; eauto.
  - repeat split; [discriminate | intros [v H]; discriminate H].
Qed.

(** The resolver in closed form: nothing but the default for a pageless
    document; otherwise the page read is the one addressed, or the last one
    when the page number is out of range, after the retry. *)
Lemma getPageAttribute_cases (st : EditorState) (pageNum : Z) :
  (pageNodesIn (doc st) = [] /\
   forall fuel, getPageAttribute (2 + fuel) st pageNum getDefault getNodeAttribute =
                Some (getDefault tt, [CallDoesDocHavePageNodes; CallGetDefault])) \/
  (exists node,
     0 <= pageNum /\ pageNodesIn (doc st) !! Z.to_nat pageNum = Some node /\
     forall fuel, getPageAttribute (2 + fuel) st pageNum getDefault getNodeAttribute =
                  Some (nullish_coalesce (getNodeAttribute node) (getDefault tt),
                        lookup_trace getNodeAttribute pageNum node)) \/
  (exists node,
     isPageNumInRange (doc st) pageNum = false /\
     pageNodesIn (doc st) !! Z.to_nat (getLastPageNum (doc st)) = Some node /\
     forall fuel, getPageAttribute (2 + fuel) st pageNum getDefault getNodeAttribute =
                  Some (nullish_coalesce (getNodeAttribute node) (getDefault tt),
                        retry_trace pageNum ++
                        lookup_trace getNodeAttribute (getLastPageNum (doc st)) node)).
Proof.
  destruct (doesDocHavePageNodes st) eqn:Hpages.
  - right. destruct (isPageNumInRange (doc st) pageNum) eqn:Hrange.
    + left. destruct (isPageNumInRange_lookup _ _ Hrange) as (Hpos & node & Hnode).
      exists node. split; [exact Hpos|]. split; [exact Hnode|].
      intros fuel. apply getPageAttribute_at_page; assumption.
    + right.
      destruct (isPageNumInRange_lookup _ _ (getLastPageNum_in_range st Hpages))
        as (Hpos & node & Hnode).
      exists node. split; [reflexivity|]. split; [exact Hnode|].
      intros fuel. change (2 + fuel)%nat with (S (S fuel)).
      rewrite (getPageAttribute_out_of_range _ _ (S fuel) st pageNum Hpages Hrange).
      rewrite (getPageAttribute_at_page st _ node fuel Hpos Hnode). reflexivity.
  - left. split; [apply doesDocHavePageNodes_false; exact Hpages|].
    intros fuel. apply getPageAttribute_pageless. exact Hpages.
Qed.

(** X5. Whatever the page number, a resolution looks up at most one page
    node, calls the default provider at most once and checks for pages at
    most twice. *)
Theorem getPageAttribute_bounded_work (st : EditorState) (pageNum : Z) :
  exists v t,
    (forall fuel,
       getPageAttribute (2 + fuel) st pageNum getDefault getNodeAttribute = Some (v, t)) /\
    (count is_node_lookup t <= 1)%nat /\
    (count is_default_call t <= 1)%nat /\
    (length t <= 9)%nat.
Proof.
  destruct (getPageAttribute_cases st pageNum)
    as [[_ H]|[(node & _ & _ & H)|(node & _ & _ & H)]];
    eexists _, _; (split; [exact H|]);
    unfold lookup_trace, retry_trace;
    try destruct (getNodeAttribute node); simpl; lia.
Qed.

(** X6. What the resolver answers is the default provider's value or an
    attribute value some page node of the document has: never a value of its
    own making. *)
Theorem getPageAttribute_value_origin (st : EditorState) (pageNum : Z) :
  exists v t,
    (forall fuel,
       getPageAttribute (2 + fuel) st pageNum getDefault getNodeAttribute = Some (v, t)) /\
    (v = getDefault tt \/
     exists node, node ∈ pageNodesIn (doc st) /\ getNodeAttribute node = Some v).
Proof.
  destruct (getPageAttribute_cases st pageNum)
    as [[_ H]|[(node & _ & Hnode & H)|(node & _ & Hnode & H)]];
    eexists _, _; (split; [exact H|]).
  - left. reflexivity.
  - destruct (getNodeAttribute node) as [v|] eqn:Hv; [right|left; reflexivity].
    exists node. split; [|exact Hv]. apply list_elem_of_lookup. eauto.
  - destruct (getNodeAttribute node) as [v|] eqn:Hv; [right|left; reflexivity].
    exists node. split; [|exact Hv]. apply list_elem_of_lookup. eauto.
Qed.

End ResolverValue.

(** In a document with pages, the page node a page number is resolved
    against does not depend on the default provider. *)
Lemma getPageAttribute_value {T : Type} (getNodeAttribute : PMNode -> Nullable T)
    (st : EditorState) (pageNum : Z) :
  pageNodesIn (doc st) <> [] ->
  exists node,
    node ∈ pageNodesIn (doc st) /\
    forall (getDefault : unit -> T) (fuel : nat),
      fst <$> getPageAttribute (2 + fuel) st pageNum getDefault getNodeAttribute =
      Some (nullish_coalesce (getNodeAttribute node) (getDefault tt)).
Proof.
  intros Hpages.
  assert (doesDocHavePageNodes st = true) as Hhas.
  { destruct (doesDocHavePageNodes st) eqn:E; [reflexivity|].
    apply doesDocHavePageNodes_false in E. congruence. }
  destruct (isPageNumInRange (doc st) pageNum) eqn:Hrange.
  - destruct (isPageNumInRange_lookup _ _ Hrange) as (Hpos & node & Hnode).
    exists node. split; [apply list_elem_of_lookup; eauto|].
    intros getDefault fuel. change (2 + fuel)%nat with (S (S fuel)).
    rewrite (getPageAttribute_at_page getDefault getNodeAttribute st pageNum node
               (S fuel) Hpos Hnode).
    reflexivity.
  - destruct (isPageNumInRange_lookup _ _ (getLastPageNum_in_range st Hhas))
      as (Hpos & node & Hnode).
    exists node. split; [apply list_elem_of_lookup; eauto|].
    intros getDefault fuel. change (2 + fuel)%nat with (S (S fuel)).
    rewrite (getPageAttribute_out_of_range _ _ (S fuel) st pageNum Hhas Hrange).
    rewrite (getPageAttribute_at_page getDefault getNodeAttribute st _ node fuel Hpos Hnode).
    reflexivity.
Qed.

(** X7. When every page node of a document with pages carries the
    attribute, the default provider plays no part: any two providers give
    the same answer for every page number, in range or not. In particular
    the resolver given the editor and the one given only the state agree. *)
Theorem getPageAttribute_default_irrelevant {T : Type} (getDefault getDefault' : unit -> T)
    (getNodeAttribute : PMNode -> Nullable T) (DEFAULT_PAPER_SIZE : string) (cmds : Commands)
    (st : EditorState) (pageNum : Z) (fuel : nat) :
  pageNodesIn (doc st) <> [] ->
  (forall node, node ∈ pageNodesIn (doc st) -> is_Some (getNodeAttribute node)) ->
  (forall node, node ∈ pageNodesIn (doc st) -> is_Some (getPageNodePaperSize node)) ->
  fst <$> getPageAttribute (2 + fuel) st pageNum getDefault getNodeAttribute =
  fst <$> getPageAttribute (2 + fuel) st pageNum getDefault' getNodeAttribute /\
  fst <$> getPageNumPaperSize (2 + fuel) {| state := st; commands := cmds |} pageNum =
  fst <$> getPageNumPaperSizeFromState DEFAULT_PAPER_SIZE (2 + fuel) st pageNum.
Proof.
  intros Hpages Hall Hsize. split.
  - destruct (getPageAttribute_value getNodeAttribute st pageNum Hpages)
      as (node & Hin & Hvalue).
    rewrite !Hvalue. destruct (Hall node Hin) as [v ->]. reflexivity.
  - unfold getPageNumPaperSize, getPageNumPaperSizeFromState. cbn [state commands].
    destruct (getPageAttribute_value getPageNodePaperSize st pageNum Hpages)
      as (node & Hin & Hvalue).
    rewrite !Hvalue. destruct (Hsize node Hin) as [v ->]. reflexivity.
Qed.

Lemma getPageAttribute_default_irrelevant_witness :
  fst <$> getPageNumPaperSize 2 (sampleEditor sampleState) 9 =
  fst <$> getPageNumPaperSizeFromState "Letter" 2 sampleState 9.
Proof.
  refine (proj2 (getPageAttribute_default_irrelevant (fun _ => JsNull) (fun _ => JsNull)
                   getPageNodePaperSize "Letter" (commands (sampleEditor sampleState))
                   sampleState 9 0 _ _ _)).
  - discriminate.
  - intros node Hin. vm_compute in Hin.
    apply elem_of_cons in Hin as [->|Hin]; [eexists; reflexivity|].
    apply elem_of_cons in Hin as [->|Hin]; [eexists; reflexivity|].
    inversion Hin.
  - intros node Hin. vm_compute in Hin.
    apply elem_of_cons in Hin as [->|Hin]; [eexists; reflexivity|].
    apply elem_of_cons in Hin as [->|Hin]; [eexists; reflexivity|].
    inversion Hin.
Defined.

Lemma getPageAttribute_reads_page_witness :
  exists t,
    getPageAttribute 1 sampleState 1 (fun _ => JsString "A4") getPageNodePaperSize =
      Some (JsString "A5", t) /\
    count is_diagnostic t = 0%nat.
Proof.
  destruct (getPageAttribute_reads_page (fun _ => JsString "A4") getPageNodePaperSize
              sampleState 1
              (samplePage "A5" "#eee" [paragraph "two"; paragraph "three"]) 0
              ltac:(lia) eq_refl) as (t & Hres & Hdiag & _).
  exists t. split; [exact Hres | exact Hdiag].
Defined.

(** X8. The four public resolvers never answer [null]: the value is the
    default or an attribute value that is not nullish. *)
Theorem public_resolvers_never_null (DEFAULT_PAPER_SIZE DEFAULT_PAPER_COLOUR : string)
    (editor : Editor) (st : EditorState) (pageNum : Z) :
  exists size size' colour colour' t1 t2 t3 t4,
    (forall fuel, getPageNumPaperSize (2 + fuel) editor pageNum = Some (size, t1)) /\
    (forall fuel, getPageNumPaperSizeFromState DEFAULT_PAPER_SIZE (2 + fuel) st pageNum =
                  Some (size', t2)) /\
    (forall fuel, getPageNumPaperColour (2 + fuel) editor pageNum = Some (colour, t3)) /\
    (forall fuel, getPageNumPaperColourFromState DEFAULT_PAPER_COLOUR (2 + fuel) st pageNum =
                  Some (colour', t4)) /\
    size <> JsNull /\ size' <> JsNull /\ colour <> JsNull /\ colour' <> JsNull.
Proof.
  assert (forall (d : unit -> JsValue) key s p,
            (exists str, d tt = JsString str) ->
            exists v t,
              (forall fuel,
                 getPageAttribute (2 + fuel) s p d
                   (fun node => nullable (attrs node !! key)) = Some (v, t)) /\
              v <> JsNull) as Hresolve.
  { intros d key s p [str Hd].
    destruct (getPageAttribute_cases d (fun node => nullable (attrs node !! key)) s p)
      as [[_ H]|[(node & _ & _ & H)|(node & _ & _ & H)]];
      eexists _, _; (split; [exact H|]); rewrite ?Hd; try discriminate.
    all: destruct (attrs node !! key) as [[]|]; simpl; rewrite ?Hd; discriminate. }
  unfold getPageNumPaperSize, getPageNumPaperSizeFromState, getPageNumPaperColour,
    getPageNumPaperColourFromState.
  destruct (Hresolve (fun _ => JsString (getDefaultPaperSize (commands editor) tt))
              PAGE_NODE_PAPER_SIZE_ATTR (state editor) pageNum ltac:(eauto))
    as (v1 & t1 & H1 & N1).
  destruct (Hresolve (fun _ => JsString DEFAULT_PAPER_SIZE)
              PAGE_NODE_PAPER_SIZE_ATTR st pageNum ltac:(eauto)) as (v2 & t2 & H2 & N2).
  destruct (Hresolve (fun _ => JsString (getDefaultPaperColour (commands editor) tt))
              PAGE_NODE_PAPER_COLOUR_ATTR (state editor) pageNum ltac:(eauto))
    as (v3 & t3 & H3 & N3).
  destruct (Hresolve (fun _ => JsString DEFAULT_PAPER_COLOUR)
              PAGE_NODE_PAPER_COLOUR_ATTR st pageNum ltac:(eauto)) as (v4 & t4 & H4 & N4).
  exists v1, v2, v3, v4, t1, t2, t3, t4.
  repeat (split; [assumption|]). assumption.
Qed.

(** ** The page attribute mutator, further *)

Section SettersFurther.

Variable number : Type.
Variable paperDimensions : gmap string (PaperDimensions number).
Variable isValidColour : string -> bool.

Local Abbreviation setSize := (setPageNodePosPaperSize number paperDimensions).
Local Abbreviation setSizeAt := (setPagePaperSize number paperDimensions).
Local Abbreviation setColour := (setPageNodePosPaperColour isValidColour).
Local Abbreviation validSize := (isValidPaperSize number paperDimensions).

(** X9. A setter answers [true] exactly when a dispatch function is given,
    its validity check accepts the value, the node is a page node and its
    attribute is not already the value; the setter by position, exactly when
    the position holds such a node. *)
Theorem setters_succeed_iff (dispatch : Dispatch) (pagePos : Z) (pageNode : PMNode)
    (paperSize : PaperSize) (paperColour : string) (w : World) :
  (fst (setSize dispatch pagePos pageNode paperSize w) = true <->
   dispatch = DispatchFn /\ validSize paperSize = true /\ isPageNode pageNode = true /\
   strict_eq_string (getPageNodePaperSize pageNode) paperSize = false) /\
  (fst (setColour dispatch pagePos pageNode paperColour w) = true <->
   dispatch = DispatchFn /\ isValidColour paperColour = true /\ isPageNode pageNode = true /\
   strict_eq_string (getPageNodePaperColour pageNode) paperColour = false) /\
  (fst (setSizeAt dispatch pagePos paperSize w) = Return true <->
   exists node,
     nodeAt (tr w) pagePos = Return (Some node) /\
     dispatch = DispatchFn /\ validSize paperSize = true /\ isPageNode node = true /\
     strict_eq_string (getPageNodePaperSize node) paperSize = false).
Proof.
  assert (forall node,
            fst (setSize dispatch pagePos node paperSize w) = true <->
            dispatch = DispatchFn /\ validSize paperSize = true /\ isPageNode node = true /\
            strict_eq_string (getPageNodePaperSize node) paperSize = false) as Hsize.
  { intros node. unfold setPageNodePosPaperSize.
    destruct dispatch; [split; [discriminate | intros [H _]; discriminate]|].
    destruct (validSize paperSize); simpl;
      [|split; [discriminate | intros (_ & H & _); discriminate]].
    destruct (isPageNode node); simpl;
      [|split; [discriminate | intros (_ & _ & H & _); discriminate]].
    destruct (strict_eq_string (getPageNodePaperSize node) paperSize); simpl;
      [split; [discriminate | intros (_ & _ & _ & H); discriminate]|].
    split; auto. }
  split; [apply Hsize|]. split.
  - unfold setPageNodePosPaperColour.
    destruct dispatch; [split; [discriminate | intros [H _]; discriminate]|].
    destruct (isValidColour paperColour); simpl;
      [|split; [discriminate | intros (_ & H & _); discriminate]].
    destruct (isPageNode pageNode); simpl;
      [|split; [discriminate | intros (_ & _ & H & _); discriminate]].
    destruct (strict_eq_string (getPageNodePaperColour pageNode) paperColour); simpl;
      [split; [discriminate | intros (_ & _ & _ & H); discriminate]|].
    split; auto.
  - unfold setPagePaperSize. destruct (nodeAt (tr w) pagePos) as [[node|]|e].
    + specialize (Hsize node).
      destruct (setSize dispatch pagePos node paperSize w) as [result w'].
      cbn [fst] in *. split.
      * intros [= ->]. exists node. split; [reflexivity | apply Hsize; reflexivity].
      * intros (node' & [= <-] & H). f_equal. apply Hsize. exact H.
    + split; [discriminate | intros (node' & H & _); discriminate].
    + split; [discriminate | intros (node' & H & _); discriminate].
Qed.

(** X10. A setter that answers [true] has written one step, that of its own
    attribute with the value, at the position, has handed the transaction so
    written to [dispatch] once, and has logged nothing. *)
Theorem setters_success_effect (dispatch : Dispatch) (pagePos : Z) (pageNode : PMNode)
    (paperSize : PaperSize) (paperColour : string) (w : World) :
  (fst (setSize dispatch pagePos pageNode paperSize w) = true ->
   let w' := snd (setSize dispatch pagePos pageNode paperSize w) in
   tr_steps (tr w') =
     tr_steps (tr w) ++ [AttrStep pagePos PAGE_NODE_PAPER_SIZE_ATTR (JsString paperSize)] /\
   dispatched w' = dispatched w ++ [tr w'] /\
   console w' = console w) /\
  (fst (setColour dispatch pagePos pageNode paperColour w) = true ->
   let w' := snd (setColour dispatch pagePos pageNode paperColour w) in
   tr_steps (tr w') =
     tr_steps (tr w) ++ [AttrStep pagePos PAGE_NODE_PAPER_COLOUR_ATTR (JsString paperColour)] /\
   dispatched w' = dispatched w ++ [tr w'] /\
   console w' = console w).
Proof.
  split.
  - unfold setPageNodePosPaperSize. destruct dispatch; [discriminate|].
    destruct (negb (validSize paperSize)); [discriminate|].
    destruct (negb (isPageNode pageNode)); [discriminate|].
    destruct (strict_eq_string (getPageNodePaperSize pageNode) paperSize); [discriminate|].
    intros _. repeat split.
  - unfold setPageNodePosPaperColour. destruct dispatch; [discriminate|].
    destruct (negb (isValidColour paperColour)); [discriminate|].
    destruct (negb (isPageNode pageNode)); [discriminate|].
    destruct (strict_eq_string (getPageNodePaperColour pageNode) paperColour); [discriminate|].
    intros _. repeat split.
Qed.

(** X11. What a setter logs. Without a dispatch function, and whenever its
    validity check accepts the value and the node is a page node (so also
    when the value is already set, and on success), it logs nothing. With a
    dispatch function, a value the check refuses gives exactly one warning,
    whatever the node is, and an accepted value for a node that is not a page
    node gives exactly one error. The setter by position, which looks for the
    node first, logs an error for a position inside the document that holds
    no node even when it has no dispatch function; for a position outside
    the document it raises and logs nothing. *)
Theorem setters_diagnostics (dispatch : Dispatch) (pagePos : Z) (pageNode : PMNode)
    (paperSize : PaperSize) (paperColour : string) (w : World) :
  let size_log := console (snd (setSize dispatch pagePos pageNode paperSize w)) in
  let colour_log := console (snd (setColour dispatch pagePos pageNode paperColour w)) in
  (dispatch = DispatchUndefined -> size_log = console w /\ colour_log = console w) /\
  (isPageNode pageNode = true ->
   (validSize paperSize = true -> size_log = console w) /\
   (isValidColour paperColour = true -> colour_log = console w)) /\
  (dispatch = DispatchFn ->
   (validSize paperSize = false ->
    size_log = console w ++ [ConsoleWarn [JsString ("Invalid paper size: " +:+ paperSize)]]) /\
   (isValidColour paperColour = false ->
    colour_log =
    console w ++ [ConsoleWarn [JsString ("Invalid paper colour: " +:+ paperColour)]]) /\
   (isPageNode pageNode = false ->
    (validSize paperSize = true ->
     exists args, size_log = console w ++ [ConsoleError args]) /\
    (isValidColour paperColour = true ->
     exists args, colour_log = console w ++ [ConsoleError args]))) /\
  (nodeAt (tr w) pagePos = Return None ->
   console (snd (setSizeAt dispatch pagePos paperSize w)) =
   console w ++ [ConsoleError [JsString "No node found at pos:"; JsNumber pagePos 0]]) /\
  (forall e, nodeAt (tr w) pagePos = Throw e ->
             fst (setSizeAt dispatch pagePos paperSize w) = Throw e /\
             console (snd (setSizeAt dispatch pagePos paperSize w)) = console w).
Proof.
  intros size_log colour_log. unfold size_log, colour_log.
  unfold setPagePaperSize, setPageNodePosPaperSize, setPageNodePosPaperColour.
  split; [intros ->; split; reflexivity|].
  split; [|split; [|split; [intros ->; reflexivity | intros e ->; split; reflexivity]]].
  - intros Hpage. rewrite Hpage. split; intros ->; destruct dispatch; simpl;
      try reflexivity.
    + destruct (strict_eq_string (getPageNodePaperSize pageNode) paperSize); reflexivity.
    + destruct (strict_eq_string (getPageNodePaperColour pageNode) paperColour); reflexivity.
  - intros ->. split; [intros ->; reflexivity|]. split; [intros ->; reflexivity|].
    intros ->. split; intros ->; simpl; eexists; reflexivity.
Qed.

End SettersFurther.

Lemma setters_success_effect_witness :
  let r := setPageNodePosPaperSize Z sampleDimensions DispatchFn 0
             (samplePage "A4" "#fff" []) "A5" sampleWorld in
  fst r = true /\
  tr_steps (tr (snd r)) = [AttrStep 0 PAGE_NODE_PAPER_SIZE_ATTR (JsString "A5")] /\
  dispatched (snd r) = [tr (snd r)] /\
  console (snd r) = [].
Proof.
  intros r. split; [reflexivity|].
  exact (proj1 (setters_success_effect Z sampleDimensions sampleColour DispatchFn 0
                  (samplePage "A4" "#fff" []) "A5" "#000" sampleWorld) eq_refl).
Defined.

Lemma setters_diagnostics_witness :
  console (snd (setPageNodePosPaperSize Z sampleDimensions DispatchFn 7
                  (paragraph "p") "Tabloid" sampleWorld)) =
  [ConsoleWarn [JsString "Invalid paper size: Tabloid"]].
Proof.
  exact (proj1 (proj1 (proj2 (proj2 (setters_diagnostics Z sampleDimensions sampleColour
                                       DispatchFn 7 (paragraph "p") "Tabloid" "#000"
                                       sampleWorld))) eq_refl) eq_refl).
Defined.

(** ** The clipboard serializer, further *)

Section ClipboardFurther.

Variable DomNode : Type.
Variable serializeNode : PMNode -> DomNode.

Local Abbreviation clipboard := (serializeFragment DomNode serializeNode).
Local Abbreviation base := (DOMSerializer_serializeFragment DomNode serializeNode).

(** X13. For every fragment, the override adds to the target the DOM of
    the children of the page nodes of the fragment, in order, and nothing
    else: no page wrapper, and nothing for a node that is not a page node. *)
Theorem serializeFragment_flattens (fragment : list PMNode) (target : option (list DomNode)) :
  clipboard fragment target =
  match target with Some t => t | None => [] end ++
  map serializeNode (flat_map content (List.filter isPageNode fragment)).
Proof.
  rewrite serializeFragment_spec. f_equal.
  induction fragment as [|node fragment IH]; [reflexivity|].
  simpl. destruct (isPageNode node); simpl.
  - rewrite map_app, IH. reflexivity.
  - exact IH.
Qed.

(** X14. Serializing a fragment in two parts, the second into the result of
    the first, is serializing it whole; and what the target held before is
    kept in front. *)
Theorem serializeFragment_app (fragment1 fragment2 : list PMNode)
    (target : option (list DomNode)) :
  clipboard (fragment1 ++ fragment2) target =
    clipboard fragment2 (Some (clipboard fragment1 target)) /\
  exists added, clipboard fragment1 target =
                match target with Some t => t | None => [] end ++ added.
Proof.
  rewrite !serializeFragment_spec. split.
  - rewrite flat_map_app, List.app_assoc. reflexivity.
  - eexists. reflexivity.
Qed.

(** X15. For a fragment made of page nodes only, the override gives what the
    schema's serializer gives for their children taken together: the pages
    are flattened, in order, and no child is lost. *)
Theorem serializeFragment_pages_only (fragment : list PMNode) (target : list DomNode) :
  Forall (fun node => isPageNode node = true) fragment ->
  clipboard fragment (Some target) = base (flat_map content fragment) target.
Proof.
  intros Hpages. rewrite serializeFragment_spec, DOMSerializer_serializeFragment_app.
  f_equal. induction Hpages as [|node fragment Hnode _ IH]; [reflexivity|].
  simpl. rewrite Hnode, map_app, IH. reflexivity.
Qed.

(** X16. A fragment without page nodes adds nothing to the target: copying
    content that is not wrapped in a page gives an empty result. *)
Theorem serializeFragment_without_pages (fragment : list PMNode)
    (target : option (list DomNode)) :
  Forall (fun node => isPageNode node = false) fragment ->
  clipboard fragment target = match target with Some t => t | None => [] end.
Proof.
  intros Hnone. rewrite serializeFragment_spec.
  assert (flat_map (fun node => if isPageNode node
                                then map serializeNode (content node) else [])
                   fragment = []) as ->.
  { induction Hnone as [|node fragment Hnode _ IH]; [reflexivity|].
    simpl. rewrite Hnode, IH. reflexivity. }
  apply List.app_nil_r.
Qed.

End ClipboardFurther.

Lemma serializeFragment_pages_only_witness :
  serializeFragment PMNode id
    [samplePage "A4" "#fff" [paragraph "one"]; samplePage "A5" "#eee" [paragraph "two"]]
    (Some []) =
  [paragraph "one"; paragraph "two"].
Proof.
  rewrite (serializeFragment_pages_only PMNode id
             [samplePage "A4" "#fff" [paragraph "one"];
              samplePage "A5" "#eee" [paragraph "two"]] []).
  - reflexivity.
  - repeat constructor.
Defined.

Lemma serializeFragment_without_pages_witness :
  serializeFragment PMNode id [paragraph "one"; paragraph "two"] None = [].
Proof.
  apply (serializeFragment_without_pages PMNode id [paragraph "one"; paragraph "two"] None).
  repeat constructor.
Defined.

(** ** The page node's HTML, further *)

(** X17. The nesting check looks one level up only: a marked [div] whose
    parent is not marked is accepted whatever lies above the parent, a page
    element included. *)
Theorem parseHTML_accepts_under_unmarked_parent (attributes parentAttributes : gmap string string)
    (parentName : string) (above : option HTMLElement) :
  is_Some (attributes !! dataPageAttribute) ->
  parentAttributes !! dataPageAttribute = None ->
  parseHTML_accepts
    (Element baseElement attributes (Some (Element parentName parentAttributes above))) = true.
Proof.
  intros [v Hv] Hparent. apply parseHTML_accepts_spec. split; [reflexivity|]. split.
  - unfold hasAttribute. simpl. rewrite Hv. reflexivity.
  - intros parent [= <-]. unfold hasAttribute. simpl. rewrite Hparent. reflexivity.
Qed.

Lemma parseHTML_accepts_under_unmarked_parent_witness :
  let page := Element "div" {[ dataPageAttribute := "true"%string ]} None in
  let wrapper := Element "section" ∅ (Some page) in
  parseHTML_accepts page = true /\
  parseHTML_accepts (Element "div" {[ dataPageAttribute := "true"%string ]} (Some wrapper)) = true.
Proof.
  intros page wrapper. split; [reflexivity|].
  apply (parseHTML_accepts_under_unmarked_parent {[ dataPageAttribute := "true"%string ]} ∅
           "section" (Some page)).
  - eexists. reflexivity.
  - reflexivity.
Defined.

Section RenderProperties.

Variable mergeAttributes : gmap string JsValue -> gmap string JsValue -> gmap string JsValue.
Variable attribute_text : JsValue -> string.

Local Abbreviation rendered :=
  (fun HTMLAttributes parent =>
     spec_element attribute_text (renderHTML mergeAttributes HTMLAttributes) parent).

(** X18. Provided [mergeAttributes] lets the later object win for a key that
    is neither [class] nor [style], what [renderHTML] gives is recognised by
    the parse rule: the element rendered for a page is accepted as a page
    node under a parent that is not marked, whatever attributes the node
    contributes; and a rendered page directly inside a rendered page is
    rejected. *)
Theorem renderHTML_recognised (HTMLAttributes HTMLAttributes' : gmap string JsValue)
    (parent above : option HTMLElement) :
  (forall (a b : gmap string JsValue) (key : string) (v : JsValue),
     b !! key = Some v -> key <> "class"%string -> key <> "style"%string ->
     mergeAttributes a b !! key = Some v) ->
  (forall p, parent = Some p -> hasAttribute p dataPageAttribute = false) ->
  parseHTML_accepts (rendered HTMLAttributes parent) = true /\
  parseHTML_accepts (rendered HTMLAttributes (Some (rendered HTMLAttributes' above))) = false.
Proof.
  intros Hmerge Hparent.
  assert (forall attributes up,
            hasAttribute (rendered attributes up) dataPageAttribute = true) as Hmarked.
  { intros attributes up. unfold hasAttribute, spec_element, renderHTML. simpl.
    rewrite lookup_omap.
    rewrite (Hmerge _ _ _ (JsBool true));
      [reflexivity | apply lookup_insert_eq | discriminate | discriminate]. }
  split.
  - apply parseHTML_accepts_spec. split; [reflexivity|]. split; [apply Hmarked|].
    intros p Hp. apply Hparent. exact Hp.
  - destruct (parseHTML_accepts (rendered HTMLAttributes
                                   (Some (rendered HTMLAttributes' above)))) eqn:E;
      [|reflexivity].
    apply parseHTML_accepts_spec in E. destruct E as (_ & _ & E).
    specialize (E _ eq_refl). rewrite Hmarked in E. discriminate E.
Qed.

End RenderProperties.

Lemma renderHTML_recognised_witness :
  let attributes : gmap string JsValue := {[ dataPageAttribute := JsBool false ]} in
  parseHTML_accepts
    (spec_element JSON.stringify (renderHTML sampleMerge attributes) None) = true.
Proof.
  intros attributes.
  refine (proj1 (renderHTML_recognised sampleMerge JSON.stringify attributes attributes
                   None None _ _)).
  - intros a b key v Hb _ _. unfold sampleMerge.
    apply lookup_union_Some_l. exact Hb.
  - intros p Hp. discriminate Hp.
Defined.

(** ** The node view, further *)

Section NodeViewFurther.

Variable number : Type.
Variable DEFAULT_PAPER_SIZE : string.
Variable DEFAULT_PAPER_COLOUR : string.
Variable DEFAULT_PAPER_ORIENTATION : string.
Variable DEFAULT_MARGIN_CONFIG : JsValue.
Variable getOrientedPaperDimensions : JsValue -> JsValue -> PaperDimensions number.
Variable calculatePagePadding : JsValue -> string.
Variable mm : number -> string.

Local Abbreviation nodeView :=
  (addNodeView number DEFAULT_PAPER_SIZE DEFAULT_PAPER_COLOUR DEFAULT_PAPER_ORIENTATION
     DEFAULT_MARGIN_CONFIG getOrientedPaperDimensions calculatePagePadding mm).

(** X19. The node view is a function of four attributes of the node, read as
    nullable values: two nodes that agree on paper size, orientation, margins
    and colour get the same view, whatever their type, content and other
    attributes; an attribute that is [null] counts as one that is missing. *)
Theorem addNodeView_depends_on_four_attributes (options : PageNodeOptions number)
    (node1 node2 : PMNode) :
  (forall key,
     key = PAGE_NODE_ATTR_KEYS.paperSize \/ key = PAGE_NODE_ATTR_KEYS.paperOrientation \/
     key = PAGE_NODE_ATTR_KEYS.pageMargins \/ key = PAGE_NODE_ATTR_KEYS.paperColour ->
     nullable (attrs node1 !! key) = nullable (attrs node2 !! key)) ->
  nodeView options node1 = nodeView options node2.
Proof.
  intros Hsame. unfold addNodeView, getPageNodeAttr.
  rewrite (Hsame PAGE_NODE_ATTR_KEYS.paperSize) by auto.
  rewrite (Hsame PAGE_NODE_ATTR_KEYS.paperOrientation) by auto.
  rewrite (Hsame PAGE_NODE_ATTR_KEYS.pageMargins) by auto.
  rewrite (Hsame PAGE_NODE_ATTR_KEYS.paperColour) by auto.
  reflexivity.
Qed.

(** X20. A node without attributes is shown exactly as a node that carries
    the four defaults. *)
Theorem addNodeView_defaults (options : PageNodeOptions number)
    (type1 type2 : string) (content1 content2 : list PMNode) :
  nodeView options (Node type1 ∅ content1) =
  nodeView options
    (Node type2
       (<[PAGE_NODE_ATTR_KEYS.paperSize := JsString DEFAULT_PAPER_SIZE]>
          (<[PAGE_NODE_ATTR_KEYS.paperOrientation := JsString DEFAULT_PAPER_ORIENTATION]>
             (<[PAGE_NODE_ATTR_KEYS.pageMargins := DEFAULT_MARGIN_CONFIG]>
                (<[PAGE_NODE_ATTR_KEYS.paperColour := JsString DEFAULT_PAPER_COLOUR]> ∅))))
       content2).
Proof.
  unfold addNodeView, getPageNodeAttr. cbn [attrs].
  rewrite !lookup_empty.
  rewrite lookup_insert_eq.
  rewrite (lookup_insert_ne _ PAGE_NODE_ATTR_KEYS.paperSize
             PAGE_NODE_ATTR_KEYS.paperOrientation) by discriminate.
  rewrite lookup_insert_eq.
  rewrite !(lookup_insert_ne _ _ PAGE_NODE_ATTR_KEYS.pageMargins) by discriminate.
  rewrite lookup_insert_eq.
  rewrite !(lookup_insert_ne _ _ PAGE_NODE_ATTR_KEYS.paperColour) by discriminate.
  rewrite lookup_insert_eq.
  cbn [nullable nullish_coalesce].
  destruct DEFAULT_MARGIN_CONFIG; reflexivity.
Qed.

(** X21. The element the node view builds is one the parse rule recognises:
    under a parent that is not marked it is accepted as a page node, while
    the content holder inside it is not. *)
Theorem addNodeView_dom_recognised (options : PageNodeOptions number) (node : PMNode)
    (parent : option HTMLElement) :
  (forall p, parent = Some p -> hasAttribute p dataPageAttribute = false) ->
  let view := nodeView options node in
  parseHTML_accepts (dom_element (dom view) parent) = true /\
  parseHTML_accepts
    (dom_element (contentDOM view) (Some (dom_element (dom view) parent))) = false.
Proof.
  intros Hparent view. unfold view, addNodeView. cbn [dom contentDOM].
  destruct (nullish_coalesce (getPageNodeAttr PAGE_NODE_ATTR_KEYS.paperColour node)
              (JsString DEFAULT_PAPER_COLOUR)); cbn.
  all: split; [|reflexivity].
  all: apply parseHTML_accepts_spec; split; [reflexivity|]; split; [reflexivity|].
  all: intros p Hp; apply Hparent; exact Hp.
Qed.

End NodeViewFurther.

Lemma addNodeView_depends_on_four_attributes_witness :
  let view := addNodeView Z "A4" "#fff" "portrait" JsNull
                (fun _ _ => {| width := 210; height := 297 |}) (fun _ => "25mm"%string)
                (fun _ => "20mm"%string)
                {| opt_paperSize := "A4"; opt_paperColour := "#fff";
                   opt_paperOrientation := "portrait"; opt_pageMargins := EmptyString;
                   opt_pageGap := 20 |} in
  view (Node "page" {[ PAGE_NODE_ATTR_KEYS.paperColour := JsNull ]} [paragraph "a"]) =
  view (Node "other" {[ "id"%string := JsString "x" ]} []).
Proof.
  intros view.
  apply (addNodeView_depends_on_four_attributes Z "A4" "#fff" "portrait" JsNull
           (fun _ _ => {| width := 210; height := 297 |}) (fun _ => "25mm"%string)
           (fun _ => "20mm"%string)).
  intros key [->|[->|[->| ->]]]; reflexivity.
Defined.

Lemma addNodeView_dom_recognised_witness :
  parseHTML_accepts
    (dom_element
       (dom (addNodeView Z "A4" "#fff" "portrait" JsNull
               (fun _ _ => {| width := 210; height := 297 |}) (fun _ => "25mm"%string)
               (fun _ => "20mm"%string)
               {| opt_paperSize := "A4"; opt_paperColour := "#fff";
                  opt_paperOrientation := "portrait"; opt_pageMargins := EmptyString;
                  opt_pageGap := 20 |}
               (samplePage "A5" "#eee" [])))
       None) = true.
Proof.
  refine (proj1 (addNodeView_dom_recognised Z "A4" "#fff" "portrait" JsNull
                   (fun _ _ => {| width := 210; height := 297 |}) (fun _ => "25mm"%string)
                   (fun _ => "20mm"%string) _ (samplePage "A5" "#eee" []) None _)).
  intros p Hp. discriminate Hp.
Defined.

(** ** The margins attribute, further *)

Lemma skip_ws_blank (s : list ascii) :
  forallb JSON.is_ws s = true -> JSON.skip_ws s = [].
Proof.
  induction s as [|c s IH]; [reflexivity|]. simpl.
  destruct (JSON.is_ws c); [exact IH | discriminate].
Qed.

Lemma JSON_parse_blank (s : string) : is_blank s = true -> JSON.parse s = Throw SyntaxError.
Proof.
  intros H. unfold JSON.parse, JSON.fuel_for.
  replace (2 * length (String.list_ascii_of_string s) + 2)%nat
    with (S (2 * length (String.list_ascii_of_string s) + 1)) by lia.
  cbn [JSON.parse_value]. rewrite (skip_ws_blank _ H). reflexivity.
Qed.

(** X22. Of the values that hold no margins, only the missing and the empty
    one give the default: a serialized value made of white space only is
    handed to [JSON.parse] and raises. *)
Theorem pageMargins_parseHTML_blank (DEFAULT_MARGIN_CONFIG : JsValue) (element : HTMLElement)
    (margins : string) :
  getAttribute element PAGE_NODE_ATTR_KEYS.pageMargins = Some margins ->
  margins <> EmptyString ->
  is_blank margins = true ->
  pageMargins_parseHTML DEFAULT_MARGIN_CONFIG element = Throw SyntaxError.
Proof.
  intros Hattr Hne Hblank. unfold pageMargins_parseHTML. rewrite Hattr.
  apply truthy_nonempty in Hne. rewrite Hne. apply JSON_parse_blank. exact Hblank.
Qed.

Lemma pageMargins_parseHTML_blank_witness :
  pageMargins_parseHTML sampleMargins
    (Element "div" {[ "pageMargins"%string := "  "%string ]} None) = Throw SyntaxError.
Proof.
  apply (pageMargins_parseHTML_blank sampleMargins _ "  "%string).
  - reflexivity.
  - discriminate.
  - reflexivity.
Defined.
